(** * Update queries of bunnet: a shallow embedding

    This development models [bunnet/odm/queries/update.py]: the state of an
    [UpdateQuery] object, the builder methods [update] and [upsert], the
    [update_query] property that merges the accumulated expressions, and
    [run] with its two execution paths (immediate driver call, or enqueueing
    on a [BulkWriter]) and the insert that follows an update matching
    nothing.

    Python objects are mutable and shared by reference, so query objects and
    bulk writers live in a store indexed by locations; methods are
    computations over that store that either return a value or raise. *)

From stdpp Require Import gmap strings list fin_maps.

Set Warnings "-register-all".

Open Scope string_scope.
Open Scope list_scope.

(** ** Python values *)

(** The values that occur inside filter and update documents.  [VObject]
    is an instance of a user-defined class, named by the class. *)
Inductive value :=
| VNone
| VBool (b : bool)
| VInt (n : Z)
| VStr (s : string)
| VList (l : list value)
| VDict (d : gmap string value)
| VObject (cls : string) (payload : value).

(** [d.update(other)]: every key of [other] is written into [d]; a key
    already present keeps only the new value. *)
Definition dict_update (d other : gmap string value) : gmap string value :=
  other ∪ d.

(** ** Exceptions and results *)

Inductive exn :=
| TypeError (msg : string)
| AttributeError (msg : string)
| PyMongoError (msg : string)
| InvalidReference.

Inductive result (A : Type) :=
| Ok (a : A)
| Raise (e : exn).
Arguments Ok {A} a.
Arguments Raise {A} e.

(** ** The encoder *)

(** Modelled from the spec: [bunnet.odm.utils.encoder.Encoder] is outside
    the files modelled here.  The spec describes it as converting field
    values, custom types included, into wire-safe primitives using a
    registered type-to-function table: values that are wire-safe already
    are kept, containers are encoded element by element with their keys
    kept, and an instance of a registered class goes through the function
    registered for that class.  The spec does not say what the encoder
    does with a value it cannot convert, nor whether it writes into the
    dictionaries it is handed: in this reading it keeps such a value and
    builds a new value, leaving its argument as it was. *)
Fixpoint encode (custom_encoders : gmap string (value -> value)) (obj : value)
  : value :=
  match obj with
  | VList l => VList (map (encode custom_encoders) l)
  | VDict d => VDict (encode custom_encoders <$> d)
  | VObject cls _ =>
      match custom_encoders !! cls with
      | Some f => f obj
      | None => obj
      end
  | _ => obj
  end.

(** ** Update expressions *)

(** Modelled from the spec: [bunnet.odm.operators.update.BaseUpdateOperator]
    is outside the files modelled here; an operator is an opaque object
    whose [query] property is its clause, a mapping from the modification
    keyword to the fields it modifies. *)
Record BaseUpdateOperator := { query : gmap string value }.

(** Modelled from the spec: [bunnet.odm.operators.update.general.Max] is
    only re-exported by [operators.py]; its clause puts the given fields
    under the keyword ["$max"], as the tests of [update_query] show. *)
Definition Max (expression : gmap string value) : BaseUpdateOperator :=
  {| query := {[ "$max" := VDict expression ]} |}.

(** Objects that are neither operators nor mappings. *)
Inductive other_object :=
| NoneObj
| IntObj (n : Z)
| StrObj (s : string)
| ListObj (l : list value).

(** What [update] may be handed as an expression, by the runtime class the
    merge inspects: an instance of [BaseUpdateOperator]; an instance of
    [dict]; a [Mapping] that is neither (a [MappingProxyType], say); any
    other object. *)
Inductive expression :=
| Operator (op : BaseUpdateOperator)
| Dict (d : gmap string value)
| Mapping (items : gmap string value)
| Other (o : other_object).

Definition is_operator (e : expression) : bool :=
  match e with Operator _ => true | _ => false end.

Definition is_dict (e : expression) : bool :=
  match e with Dict _ => true | _ => false end.

(** A raw mapping: a [Mapping] that is not an operator object. *)
Definition is_raw_mapping (e : expression) : bool :=
  match e with Dict _ | Mapping _ => true | _ => false end.

(** The clause an expression contributes to the merge, when it has one. *)
Definition clause (e : expression) : option (gmap string value) :=
  match e with
  | Operator op => Some (query op)
  | Dict d => Some d
  | _ => None
  end.

(** ** Collaborators of the query *)

(** A session handle of the driver; the query only passes it on. *)
Inductive ClientSession := Session (id : positive).

(** The settings of a document model, as far as the query reads them: the
    collection name, which stands for the bound collection handle
    ([database[name]] in the settings' [init]), and the registered
    encoders. *)
Record ItemSettings := {
  name : string;
  bson_encoders : gmap string (value -> value);
}.

(** A document model class ([Type[DocType]]). *)
Record DocumentModel := {
  class_name : string;
  get_settings : ItemSettings;
}.

Definition get_motor_collection (m : DocumentModel) : string :=
  name (get_settings m).

(** A document instance. *)
Record Document := { fields : gmap string value }.

(** Locations: the identity of a mutable object. *)
Abbreviation loc := positive.

(** The concrete class of a query object; [_update] is resolved on it. *)
Inductive query_class := UpdateManyCls | UpdateOneCls.

(** ** The state of an [UpdateQuery] object *)

Record UpdateQuery := {
  cls : query_class;
  document_model : DocumentModel;
  find_query : gmap string value;
  update_expressions : list expression;
  session : option ClientSession;
  is_upsert : bool;
  upsert_insert_doc : option Document;
  encoders : gmap string (value -> value);
  bulk_writer : option loc;
  pymongo_kwargs : gmap string value;
}.

(** [UpdateQuery.__init__] *)
Definition init (c : query_class) (document_model : DocumentModel)
    (find_query : gmap string value) : UpdateQuery :=
  {| cls := c;
     document_model := document_model;
     find_query := find_query;
     update_expressions := [];
     session := None;
     is_upsert := false;
     upsert_insert_doc := None;
     encoders := bson_encoders (get_settings document_model);
     bulk_writer := None;
     pymongo_kwargs := ∅ |}.

(** Attribute assignment, one function per attribute the methods write. *)
Definition set_update_expressions (v : list expression) (q : UpdateQuery) :=
  {| cls := cls q; document_model := document_model q;
     find_query := find_query q; update_expressions := v;
     session := session q; is_upsert := is_upsert q;
     upsert_insert_doc := upsert_insert_doc q; encoders := encoders q;
     bulk_writer := bulk_writer q; pymongo_kwargs := pymongo_kwargs q |}.

Definition set_session_attr (v : option ClientSession) (q : UpdateQuery) :=
  {| cls := cls q; document_model := document_model q;
     find_query := find_query q; update_expressions := update_expressions q;
     session := v; is_upsert := is_upsert q;
     upsert_insert_doc := upsert_insert_doc q; encoders := encoders q;
     bulk_writer := bulk_writer q; pymongo_kwargs := pymongo_kwargs q |}.

Definition set_upsert_insert_doc (v : option Document) (q : UpdateQuery) :=
  {| cls := cls q; document_model := document_model q;
     find_query := find_query q; update_expressions := update_expressions q;
     session := session q; is_upsert := is_upsert q;
     upsert_insert_doc := v; encoders := encoders q;
     bulk_writer := bulk_writer q; pymongo_kwargs := pymongo_kwargs q |}.

Definition set_bulk_writer (v : option loc) (q : UpdateQuery) :=
  {| cls := cls q; document_model := document_model q;
     find_query := find_query q; update_expressions := update_expressions q;
     session := session q; is_upsert := is_upsert q;
     upsert_insert_doc := upsert_insert_doc q; encoders := encoders q;
     bulk_writer := v; pymongo_kwargs := pymongo_kwargs q |}.

Definition set_pymongo_kwargs (v : gmap string value) (q : UpdateQuery) :=
  {| cls := cls q; document_model := document_model q;
     find_query := find_query q; update_expressions := update_expressions q;
     session := session q; is_upsert := is_upsert q;
     upsert_insert_doc := upsert_insert_doc q; encoders := encoders q;
     bulk_writer := bulk_writer q; pymongo_kwargs := v |}.

(** ** The [update_query] property *)

(** The loop of [update_query]: [acc] is the local [query] dictionary.
    The clauses are read, not copied below their top level; with the
    encoder as read above, reading [update_query] leaves the expressions
    of the query as they are. *)
Fixpoint merge_expressions (acc : gmap string value) (es : list expression)
  : result (gmap string value) :=
  match es with
  | [] => Ok acc
  | Operator op :: es' => merge_expressions (dict_update acc (query op)) es'
  | Dict d :: es' => merge_expressions (dict_update acc d) es'
  | _ :: _ => Raise (TypeError "Wrong expression type")
  end.

Definition update_query (q : UpdateQuery) : result value :=
  match merge_expressions ∅ (update_expressions q) with
  | Ok acc => Ok (encode (encoders q) (VDict acc))
  | Raise e => Raise e
  end.

(** ** The bulk writer and the driver *)

Inductive pymongo_operation := UpdateOnePyMongo | UpdateManyPyMongo.

(** Modelled from the spec: [bunnet.odm.bulk] is outside the files modelled
    here.  An [Operation] is a pending operation: its kind, the two query
    fragments and the owning model type.  A [BulkWriter] accumulates the
    pending operations in the order they are added; it is a plain object,
    so a bound writer counts as true where the code tests it. *)
Record Operation := {
  operation : pymongo_operation;
  first_query : gmap string value;
  second_query : value;
  object_class : DocumentModel;
}.

Definition truthy (bulk_writer : option loc) : bool :=
  match bulk_writer with Some _ => true | None => false end.

(** The results of the driver ([pymongo.results]). *)
Record UpdateResult := {
  matched_count : Z;
  modified_count : Z;
  upserted_id : option value;
}.

Record InsertOneResult := { inserted_id : value }.

(** What [run] hands back: the update's result, the insert's result, or
    [None] when the operation was handed to a bulk writer. *)
Inductive run_result :=
| UpdateRes (r : UpdateResult)
| InsertRes (r : InsertOneResult)
| NoResult.

Definition of_update_result (r : option UpdateResult) : run_result :=
  match r with Some r => UpdateRes r | None => NoResult end.

(** The calls that leave this layer: [update_many] and [update_one] on the
    bound collection, and [insert_one] on the document model. *)
Inductive DriverCall :=
| CollectionUpdateMany (collection : string) (filter : gmap string value)
    (update : value) (session : option ClientSession)
    (kwargs : gmap string value)
| CollectionUpdateOne (collection : string) (filter : gmap string value)
    (update : value) (session : option ClientSession)
    (kwargs : gmap string value)
| DocumentInsertOne (model : DocumentModel) (document : Document)
    (session : option ClientSession) (bulk_writer : option loc).

(** The other side of those calls: what the database answers to a call,
    given the calls made before it.  An answer is a result or an error of
    the driver. *)
Record Driver := {
  reply_update : list DriverCall -> DriverCall -> result UpdateResult;
  reply_insert : list DriverCall -> DriverCall -> result InsertOneResult;
}.

(** ** The store, and computations over it *)

Record World := {
  queries : gmap loc UpdateQuery;
  writers : gmap loc (list Operation);
  calls : list DriverCall;
}.

Definition Py (A : Type) : Type := World -> result A * World.

Definition py_ret {A} (a : A) : Py A := fun w => (Ok a, w).

Definition py_raise {A} (e : exn) : Py A := fun w => (Raise e, w).

Definition py_bind {A B} (m : Py A) (k : A -> Py B) : Py B :=
  fun w =>
    match m w with
    | (Ok a, w') => k a w'
    | (Raise e, w') => (Raise e, w')
    end.

Definition py_lift {A} (r : result A) : Py A := fun w => (r, w).

Notation "x <- c1 ;; c2" := (py_bind c1 (fun x => c2))
  (at level 100, c1 at next level, right associativity).
Notation "c1 ;; c2" := (py_bind c1 (fun _ => c2))
  (at level 100, right associativity).

(** Reading the object behind a reference.  A reference of a running
    program always has its object; [InvalidReference] is the answer of the
    model for a store that lacks it. *)
Definition get_query (self : loc) : Py UpdateQuery :=
  fun w =>
    match queries w !! self with
    | Some q => (Ok q, w)
    | None => (Raise InvalidReference, w)
    end.

Definition store_query (self : loc) (q : UpdateQuery) (w : World) : World :=
  {| queries := <[self := q]> (queries w);
     writers := writers w;
     calls := calls w |}.

Definition put_query (self : loc) (q : UpdateQuery) : Py unit :=
  fun w => (Ok tt, store_query self q w).

(** [self.attr = ...]: the object is read, changed and written back. *)
Definition setattr (self : loc) (f : UpdateQuery -> UpdateQuery) : Py unit :=
  q <- get_query self ;; put_query self (f q).

Definition store_operations (bw : loc) (ops : list Operation) (w : World)
  : World :=
  {| queries := queries w;
     writers := <[bw := ops]> (writers w);
     calls := calls w |}.

(** Modelled from the spec: [BulkWriter.add_operation] puts the operation
    at the end of the pending operations of the writer. *)
Definition add_operation (bw : loc) (op : Operation) : Py unit :=
  fun w =>
    match writers w !! bw with
    | Some ops => (Ok tt, store_operations bw (ops ++ [op]) w)
    | None => (Raise InvalidReference, w)
    end.

Definition record_call (c : DriverCall) (w : World) : World :=
  {| queries := queries w; writers := writers w; calls := calls w ++ [c] |}.

(** ** The builder methods *)

(** Modelled from the spec: [SessionMethods.set_session] is outside the
    files modelled here; it binds the session handle it is given to the query
    and returns the query. *)
Definition set_session (self : loc) (s : option ClientSession) : Py loc :=
  match s with
  | Some _ => setattr self (set_session_attr s) ;; py_ret self
  | None => py_ret self
  end.

(** [UpdateQuery.update] *)
Definition update (self : loc) (args : list expression)
    (s : option ClientSession) (bw : option loc)
    (kwargs : gmap string value) : Py loc :=
  set_session self s ;;
  setattr self (fun q => set_update_expressions (update_expressions q ++ args) q) ;;
  (if truthy bw then setattr self (set_bulk_writer bw) else py_ret tt) ;;
  setattr self
    (fun q => set_pymongo_kwargs (dict_update (pymongo_kwargs q) kwargs) q) ;;
  py_ret self.

(** [UpdateQuery.upsert] *)
Definition upsert (self : loc) (args : list expression) (on_insert : Document)
    (s : option ClientSession) (bw : option loc)
    (kwargs : gmap string value) : Py loc :=
  setattr self (set_upsert_insert_doc (Some on_insert)) ;;
  update self args s bw kwargs ;;
  py_ret self.

(** [UpdateMany.update_many]; the method exists on [UpdateMany] only. *)
Definition update_many (self : loc) (args : list expression)
    (s : option ClientSession) (bw : option loc)
    (kwargs : gmap string value) : Py loc :=
  q <- get_query self ;;
  match cls q with
  | UpdateManyCls => update self args s bw kwargs
  | UpdateOneCls =>
      py_raise (AttributeError "'UpdateOne' object has no attribute 'update_many'")
  end.

(** [UpdateOne.update_one]; the method exists on [UpdateOne] only. *)
Definition update_one (self : loc) (args : list expression)
    (s : option ClientSession) (bw : option loc)
    (kwargs : gmap string value) : Py loc :=
  q <- get_query self ;;
  match cls q with
  | UpdateOneCls => update self args s bw kwargs
  | UpdateManyCls =>
      py_raise (AttributeError "'UpdateMany' object has no attribute 'update_one'")
  end.

(** ** Execution *)

Section Execution.

Variable drv : Driver.

Definition call_update (c : DriverCall) : Py UpdateResult :=
  fun w => (reply_update drv (calls w) c, record_call c w).

Definition call_insert (c : DriverCall) : Py InsertOneResult :=
  fun w => (reply_insert drv (calls w) c, record_call c w).

(** [UpdateMany._update] *)
Definition UpdateMany_update (self : loc) : Py (option UpdateResult) :=
  q <- get_query self ;;
  match bulk_writer q with
  | None =>
      let collection := get_motor_collection (document_model q) in
      doc <- py_lift (update_query q) ;;
      r <- call_update
             (CollectionUpdateMany collection (find_query q) doc
                (session q) (pymongo_kwargs q)) ;;
      py_ret (Some r)
  | Some bw =>
      doc <- py_lift (update_query q) ;;
      add_operation bw
        {| operation := UpdateManyPyMongo;
           first_query := find_query q;
           second_query := doc;
           object_class := document_model q |} ;;
      py_ret None
  end.

(** [UpdateOne._update] *)
Definition UpdateOne_update (self : loc) : Py (option UpdateResult) :=
  q <- get_query self ;;
  if negb (truthy (bulk_writer q)) then
    let collection := get_motor_collection (document_model q) in
    doc <- py_lift (update_query q) ;;
    r <- call_update
           (CollectionUpdateOne collection (find_query q) doc
              (session q) (pymongo_kwargs q)) ;;
    py_ret (Some r)
  else
    match bulk_writer q with
    | Some bw =>
        doc <- py_lift (update_query q) ;;
        add_operation bw
          {| operation := UpdateOnePyMongo;
             first_query := find_query q;
             second_query := doc;
             object_class := document_model q |} ;;
        py_ret None
    | None =>
        py_raise
          (AttributeError "'NoneType' object has no attribute 'add_operation'")
    end.

(** [self._update()], resolved on the class of the object. *)
Definition _update (self : loc) : Py (option UpdateResult) :=
  q <- get_query self ;;
  match cls q with
  | UpdateManyCls => UpdateMany_update self
  | UpdateOneCls => UpdateOne_update self
  end.

(** [UpdateQuery.run] *)
Definition run (self : loc) : Py run_result :=
  update_result <- _update self ;;
  q <- get_query self ;;
  match upsert_insert_doc q with
  | None => py_ret (of_update_result update_result)
  | Some doc =>
      match update_result with
      | Some r =>
          if (matched_count r =? 0)%Z then
            ins <- call_insert
                     (DocumentInsertOne (document_model q) doc (session q)
                        (bulk_writer q)) ;;
            py_ret (InsertRes ins)
          else py_ret (UpdateRes r)
      | None => py_ret NoResult
      end
  end.

End Execution.

(** ** Sequences of builder calls *)

Inductive builder_call :=
| CallUpdate (args : list expression) (s : option ClientSession)
    (bw : option loc) (kwargs : gmap string value)
| CallUpsert (args : list expression) (on_insert : Document)
    (s : option ClientSession) (bw : option loc) (kwargs : gmap string value)
| CallUpdateMany (args : list expression) (s : option ClientSession)
    (bw : option loc) (kwargs : gmap string value)
| CallUpdateOne (args : list expression) (s : option ClientSession)
    (bw : option loc) (kwargs : gmap string value).

Definition perform (self : loc) (c : builder_call) : Py loc :=
  match c with
  | CallUpdate args s bw kwargs => update self args s bw kwargs
  | CallUpsert args d s bw kwargs => upsert self args d s bw kwargs
  | CallUpdateMany args s bw kwargs => update_many self args s bw kwargs
  | CallUpdateOne args s bw kwargs => update_one self args s bw kwargs
  end.

(** The store after the calls were made one after the other on the same
    query; a call that raised leaves the store as it was when it raised,
    and the calls after it are made all the same. *)
Fixpoint perform_all (self : loc) (cs : list builder_call) (w : World) : World :=
  match cs with
  | [] => w
  | c :: cs' => perform_all self cs' (snd (perform self c w))
  end.

Definition bulk_writer_arg (c : builder_call) : option loc :=
  match c with
  | CallUpdate _ _ bw _ | CallUpsert _ _ _ bw _
  | CallUpdateMany _ _ bw _ | CallUpdateOne _ _ bw _ => bw
  end.

Definition is_upsert_call (c : builder_call) : bool :=
  match c with CallUpsert _ _ _ _ _ => true | _ => false end.

(** ** The builder methods as transformations of the query state *)

(** What the specification says of [update], as a function on the state of
    the query: bind the session, append the expressions, bind the bulk
    writer if one is given, merge the passthrough options. *)
Definition bind_session (s : option ClientSession) (q : UpdateQuery)
  : UpdateQuery :=
  match s with Some _ => set_session_attr s q | None => q end.

Definition bind_bulk_writer (bw : option loc) (q : UpdateQuery) : UpdateQuery :=
  if truthy bw then set_bulk_writer bw q else q.

Definition update_state (args : list expression) (s : option ClientSession)
    (bw : option loc) (kwargs : gmap string value) (q : UpdateQuery)
  : UpdateQuery :=
  let q1 := bind_session s q in
  let q2 := set_update_expressions (update_expressions q1 ++ args) q1 in
  let q3 := bind_bulk_writer bw q2 in
  set_pymongo_kwargs (dict_update (pymongo_kwargs q3) kwargs) q3.

(** What the specification says of [upsert]: record the fallback document,
    then do what [update] does with the same arguments. *)
Definition record_then_update (self : loc) (args : list expression)
    (on_insert : Document) (s : option ClientSession) (bw : option loc)
    (kwargs : gmap string value) : Py loc :=
  setattr self (set_upsert_insert_doc (Some on_insert)) ;;
  update self args s bw kwargs.

Definition upsert_state (args : list expression) (on_insert : Document)
    (s : option ClientSession) (bw : option loc) (kwargs : gmap string value)
    (q : UpdateQuery) : UpdateQuery :=
  update_state args s bw kwargs (set_upsert_insert_doc (Some on_insert) q).

(** The state of the query after a builder call; a call of a method the
    class of the query lacks changes nothing. *)
Definition perform_state (c : builder_call) (q : UpdateQuery) : UpdateQuery :=
  match c with
  | CallUpdate args s bw kwargs => update_state args s bw kwargs q
  | CallUpsert args d s bw kwargs => upsert_state args d s bw kwargs q
  | CallUpdateMany args s bw kwargs =>
      match cls q with
      | UpdateManyCls => update_state args s bw kwargs q
      | UpdateOneCls => q
      end
  | CallUpdateOne args s bw kwargs =>
      match cls q with
      | UpdateOneCls => update_state args s bw kwargs q
      | UpdateManyCls => q
      end
  end.

(** ** What [run] sends out *)

(** The call [_update] issues for a query without a bulk writer, given
    the merged update document. *)
Definition update_call (q : UpdateQuery) (doc : value) : DriverCall :=
  match cls q with
  | UpdateManyCls =>
      CollectionUpdateMany (get_motor_collection (document_model q))
        (find_query q) doc (session q) (pymongo_kwargs q)
  | UpdateOneCls =>
      CollectionUpdateOne (get_motor_collection (document_model q))
        (find_query q) doc (session q) (pymongo_kwargs q)
  end.

(** The insert of the fallback document, with the session and the bulk
    writer of the query. *)
Definition insert_call (q : UpdateQuery) (d : Document) : DriverCall :=
  DocumentInsertOne (document_model q) d (session q) (bulk_writer q).

(** The pending operation [_update] hands to a bulk writer. *)
Definition pending_operation (q : UpdateQuery) (doc : value) : Operation :=
  {| operation :=
       match cls q with
       | UpdateManyCls => UpdateManyPyMongo
       | UpdateOneCls => UpdateOnePyMongo
       end;
     first_query := find_query q;
     second_query := doc;
     object_class := document_model q |}.

Definition insert_outcome (r : result InsertOneResult) : result run_result :=
  match r with
  | Ok ins => Ok (InsertRes ins)
  | Raise e => Raise e
  end.

(** ** Sample data *)

Definition Sample : DocumentModel :=
  {| class_name := "Sample";
     get_settings := {| name := "Sample"; bson_encoders := ∅ |} |}.

Definition sample_doc : Document :=
  {| fields := {[ "integer" := VInt 1 ]} |}.

Definition sample_filter : gmap string value := {[ "integer" := VInt 1 ]}.

(** A store holding one query, at location 1, and one empty bulk writer,
    at location 2. *)
Definition world_of (q : UpdateQuery) : World :=
  {| queries := {[ 1%positive := q ]};
     writers := {[ 2%positive := [] ]};
     calls := [] |}.

(** A database in which every update matches [n] documents. *)
Definition matching (n : Z) : Driver :=
  {| reply_update := fun _ _ =>
       Ok {| matched_count := n; modified_count := n; upserted_id := None |};
     reply_insert := fun _ _ => Ok {| inserted_id := VInt 7 |} |}.

(** A database that cannot be reached. *)
Definition unreachable : Driver :=
  {| reply_update := fun _ _ =>
       Raise (PyMongoError "ServerSelectionTimeoutError");
     reply_insert := fun _ _ =>
       Raise (PyMongoError "ServerSelectionTimeoutError") |}.

Definition set_field (f : string) (n : Z) : expression :=
  Dict {[ "$set" := VDict {[ f := VInt n ]} ]}.

Definition with_expressions (es : list expression) : UpdateQuery :=
  set_update_expressions es (init UpdateManyCls Sample sample_filter).

(** ** Reading a sequence of builder calls *)

Definition args_of (c : builder_call) : list expression :=
  match c with
  | CallUpdate args _ _ _ | CallUpsert args _ _ _ _
  | CallUpdateMany args _ _ _ | CallUpdateOne args _ _ _ => args
  end.

(** Whether a query of class [k] has the method the call names: [update]
    and [upsert] are methods of [UpdateQuery], [update_many] of
    [UpdateMany] only, [update_one] of [UpdateOne] only. *)
Definition has_method (k : query_class) (c : builder_call) : bool :=
  match c with
  | CallUpdate _ _ _ _ | CallUpsert _ _ _ _ _ => true
  | CallUpdateMany _ _ _ _ =>
      match k with UpdateManyCls => true | UpdateOneCls => false end
  | CallUpdateOne _ _ _ _ =>
      match k with UpdateOneCls => true | UpdateManyCls => false end
  end.

(** The expressions the calls hand over, in the order of the calls. *)
Definition appended (k : query_class) (cs : list builder_call)
  : list expression :=
  flat_map (fun c => if has_method k c then args_of c else []) cs.

(** The fallback document after the calls: that of the last [upsert]. *)
Definition last_on_insert (cs : list builder_call) (d0 : option Document)
  : option Document :=
  fold_left
    (fun d c => match c with CallUpsert _ d' _ _ _ => Some d' | _ => d end)
    cs d0.

(** ** Reading a sequence of expressions *)

(** An expression the merge takes: an operator object or a [dict]. *)
Definition is_mergeable (e : expression) : bool :=
  is_operator e || is_dict e.

(** What the last expression that has the keyword [k] gives for it, or
    [v0] when none has. *)
Definition last_clause_from (v0 : option value) (k : string)
    (es : list expression) : option value :=
  fold_left
    (fun acc e =>
       match clause e ≫= (fun c => c !! k) with
       | Some v => Some v
       | None => acc
       end)
    es v0.

Definition last_clause (k : string) (es : list expression) : option value :=
  last_clause_from None k es.

(** ** Reading the log of driver calls *)

(** The call is not an insert handed to a bulk writer. *)
Definition insert_is_direct (c : DriverCall) : bool :=
  match c with
  | DocumentInsertOne _ _ _ (Some _) => false
  | _ => true
  end.

Definition is_update_call (c : DriverCall) : bool :=
  match c with
  | CollectionUpdateMany _ _ _ _ _ | CollectionUpdateOne _ _ _ _ _ => true
  | DocumentInsertOne _ _ _ _ => false
  end.

(** ** Settings of union documents and views *)

(** [bunnet/odm/settings/union_doc.py] and [bunnet/odm/settings/view.py]:
    how the settings object of a class is made from its inner [Settings]
    class and bound to a database. *)
Module Settings.

(** A [pymongo] database and a collection handle of it. *)
Record Database := { database_name : string }.

Record Collection := {
  collection_database : Database;
  collection_name : string;
}.

(** A class handed to [init]: its [__name__], and the attributes of its
    inner [Settings] class ([vars(settings_class)]) when it has one. *)
Record PyClass := {
  __name__ : string;
  inner_settings : option (gmap string value);
}.

Inductive error :=
| PyTypeError (msg : string)
| ViewHasNoSettings (msg : string)
| ValidationError (msg : string)
| InvalidName (msg : string)
| CollectionWasNotInitialized.

Inductive outcome (A : Type) :=
| Done (a : A)
| Failed (e : error).
Arguments Done {A} a.
Arguments Failed {A} e.

(** The fields of [ItemSettings] these files read or write; the base
    class lies outside them, its remaining fields are kept as they were
    parsed. *)
Record UnionDocSettings := {
  name : option string;
  motor_db : option Database;
  motor_collection : option Collection;
  other_fields : gmap string value;
}.

(** The [source] of a view: a collection name, or a document class, which
    answers [get_collection_name()] with a name or raises. *)
Inductive source_ref :=
| SourceName (n : string)
| SourceClass (get_collection_name : outcome string).

Record ViewSettings := {
  view_name : option string;
  view_motor_db : option Database;
  view_motor_collection : option Collection;
  source : source_ref;
  pipeline : list (gmap string value);
  view_other_fields : gmap string value;
}.

(** [vars(obj)]: the attributes of a class; [None] has none to give. *)
Definition vars (settings_class : option (gmap string value))
  : outcome (gmap string value) :=
  match settings_class with
  | Some attrs => Done attrs
  | None => Failed (PyTypeError "vars() argument must have __dict__ attribute")
  end.

(** [database[name]], where [name] may still be [None].  [getitem] is
    [Database.__getitem__] of [pymongo], which these files take as given:
    it answers a name with the collection handle, or raises for a name it
    does not accept. *)
Definition getitem_opt (getitem : Database -> string -> outcome Collection)
    (database : Database) (n : option string) : outcome Collection :=
  match n with
  | Some n => getitem database n
  | None => Failed (PyTypeError "name must be an instance of str")
  end.

(** [UnionDocSettings.init]; [parse_obj] is the validation of [pydantic],
    which these files take as given. *)
Definition UnionDocSettings_init
    (parse_obj : gmap string value -> outcome UnionDocSettings)
    (getitem : Database -> string -> outcome Collection)
    (doc_class : PyClass) (database : Database) : outcome UnionDocSettings :=
  let settings_class := inner_settings doc_class in
  match vars settings_class with
  | Failed e => Failed e
  | Done attrs =>
      match parse_obj attrs with
      | Failed e => Failed e
      | Done s =>
          let n :=
            match name s with
            | None => Some (__name__ doc_class)
            | Some n => Some n
            end in
          match getitem_opt getitem database n with
          | Failed e => Failed e
          | Done c =>
              Done {| name := n;
                      motor_db := Some database;
                      motor_collection := Some c;
                      other_fields := other_fields s |}
          end
      end
  end.

(** [ViewSettings.init] *)
Definition ViewSettings_init
    (parse_obj : gmap string value -> outcome ViewSettings)
    (getitem : Database -> string -> outcome Collection)
    (view_class : PyClass) (database : Database) : outcome ViewSettings :=
  match inner_settings view_class with
  | None => Failed (ViewHasNoSettings "View must have Settings inner class")
  | Some attrs =>
      match parse_obj attrs with
      | Failed e => Failed e
      | Done s =>
          let n :=
            match view_name s with
            | None => Some (__name__ view_class)
            | Some n => Some n
            end in
          let resolved :=
            match source s with
            | SourceClass get_collection_name =>
                match get_collection_name with
                | Done src => Done (SourceName src)
                | Failed e => Failed e
                end
            | SourceName src => Done (SourceName src)
            end in
          match resolved with
          | Failed e => Failed e
          | Done src =>
              match getitem_opt getitem database n with
              | Failed e => Failed e
              | Done c =>
                  Done {| view_name := n;
                          view_motor_db := Some database;
                          view_motor_collection := Some c;
                          source := src;
                          pipeline := pipeline s;
                          view_other_fields := view_other_fields s |}
              end
          end
      end
  end.

(** Sample data: a validation that reads [name] and [source]; a class is
    written as an object of class ["type"] holding the collection name
    the class answers, or [None] when the class was not initialised; a
    database that accepts every name but the empty one. *)
Definition parse_union (attrs : gmap string value) : outcome UnionDocSettings :=
  Done {| name := match attrs !! "name" with
                  | Some (VStr n) => Some n
                  | _ => None
                  end;
          motor_db := None;
          motor_collection := None;
          other_fields := ∅ |}.

Definition parsed_view (attrs : gmap string value) (src : source_ref)
  : ViewSettings :=
  {| view_name := match attrs !! "name" with
                  | Some (VStr n) => Some n
                  | _ => None
                  end;
     view_motor_db := None;
     view_motor_collection := None;
     source := src;
     pipeline := [];
     view_other_fields := ∅ |}.

Definition parse_view (attrs : gmap string value) : outcome ViewSettings :=
  match attrs !! "source" with
  | None => Failed (ValidationError "source: field required")
  | Some (VStr n) => Done (parsed_view attrs (SourceName n))
  | Some (VObject "type" (VStr n)) =>
      Done (parsed_view attrs (SourceClass (Done n)))
  | Some (VObject "type" _) =>
      Done (parsed_view attrs (SourceClass (Failed CollectionWasNotInitialized)))
  | Some _ => Failed (ValidationError "source: str type expected")
  end.

Definition sample_getitem (database : Database) (n : string)
  : outcome Collection :=
  match n with
  | "" => Failed (InvalidName "collection names cannot be empty")
  | _ => Done {| collection_database := database; collection_name := n |}
  end.

Definition test_db : Database := {| database_name := "test" |}.

End Settings.

(** * Properties *)

(** ** The merge *)

Lemma encode_dict encs (d : gmap string value) :
  encode encs (VDict d) = VDict (encode encs <$> d).
Proof. reflexivity. Qed.

Lemma dict_update_lookup_new (d other : gmap string value) k v :
  other !! k = Some v -> dict_update d other !! k = Some v.
Proof. intros H. unfold dict_update. by apply lookup_union_Some_l. Qed.

Lemma dict_update_lookup_old (d other : gmap string value) k :
  other !! k = None -> dict_update d other !! k = d !! k.
Proof. intros H. unfold dict_update. by rewrite lookup_union_r. Qed.

Lemma merge_expressions_app acc es1 es2 :
  merge_expressions acc (es1 ++ es2) =
  match merge_expressions acc es1 with
  | Ok acc' => merge_expressions acc' es2
  | Raise e => Raise e
  end.
Proof.
  revert acc. induction es1 as [|e es1 IH]; intros acc; simpl; [done|].
  destruct e; auto.
Qed.

Lemma merge_expressions_ok acc es :
  Forall (fun e => is_Some (clause e)) es ->
  exists acc', merge_expressions acc es = Ok acc'.
Proof.
  intros Hall. revert acc.
  induction Hall as [|e es [c Hc] _ IH]; intros acc; simpl; [eauto|].
  destruct e; simpl in Hc; try discriminate; apply IH.
Qed.

Lemma merge_expressions_raise acc es e :
  e ∈ es -> clause e = None ->
  merge_expressions acc es = Raise (TypeError "Wrong expression type").
Proof.
  intros Hin Hc. revert acc.
  induction Hin as [e es|e e' es _ IH]; intros acc; simpl.
  - destruct e; simpl in Hc; try discriminate; reflexivity.
  - destruct e'; auto.
Qed.

Lemma merge_expressions_step acc e c :
  clause e = Some c -> merge_expressions acc [e] = Ok (dict_update acc c).
Proof. destruct e; simpl; intros H; try discriminate; by inversion H. Qed.

Lemma merge_expressions_frame acc es k :
  Forall (fun e => exists c, clause e = Some c /\ c !! k = None) es ->
  exists acc', merge_expressions acc es = Ok acc' /\ acc' !! k = acc !! k.
Proof.
  intros Hall. revert acc.
  induction Hall as [|e es (c & Hc & Hk) _ IH]; intros acc; simpl; [eauto|].
  destruct e; simpl in Hc; try discriminate; injection Hc as ->;
    destruct (IH (dict_update acc c)) as (acc' & Hacc' & Hk');
    exists acc'; (split; [done|]);
    by rewrite Hk', (dict_update_lookup_old _ _ _ Hk).
Qed.

Lemma update_query_raise q e :
  e ∈ update_expressions q -> clause e = None ->
  update_query q = Raise (TypeError "Wrong expression type").
Proof.
  intros Hin Hc. unfold update_query.
  by rewrite (merge_expressions_raise _ _ _ Hin Hc).
Qed.

(** C4: the raw mapping [{"$set": {"x": 1}}] followed by the raw mapping
    [{"$set": {"x": 2}}] merges to [{"$set": {"x": 2}}]: the later
    expression wins the collision. *)
Theorem merge_override_order (q : UpdateQuery) :
  update_expressions q = [set_field "x" 1; set_field "x" 2] ->
  update_query q = Ok (VDict {[ "$set" := VDict {[ "x" := VInt 2 ]} ]}).
Proof.
  intros Hes. unfold update_query. rewrite Hes.
  vm_compute. reflexivity.
Qed.

Lemma merge_override_order_witness :
  update_query (with_expressions [set_field "x" 1; set_field "x" 2]) =
  Ok (VDict {[ "$set" := VDict {[ "x" := VInt 2 ]} ]}).
Proof. apply merge_override_order. reflexivity. Defined.

(** C5: the operator [Max({"x": 10})] followed by the raw mapping
    [{"$set": {"x": 100}}] merges to
    [{"$max": {"x": 10}, "$set": {"x": 100}}]: entries under different
    keywords do not collide. *)
Theorem merge_cross_keyword (q : UpdateQuery) :
  update_expressions q =
    [Operator (Max {[ "x" := VInt 10 ]}); set_field "x" 100] ->
  update_query q =
    Ok (VDict (<[ "$max" := VDict {[ "x" := VInt 10 ]} ]>
                 {[ "$set" := VDict {[ "x" := VInt 100 ]} ]})).
Proof.
  intros Hes. unfold update_query. rewrite Hes.
  vm_compute. reflexivity.
Qed.

Lemma merge_cross_keyword_witness :
  update_query
    (with_expressions
       [Operator (Max {[ "x" := VInt 10 ]}); set_field "x" 100]) =
  Ok (VDict (<[ "$max" := VDict {[ "x" := VInt 10 ]} ]>
               {[ "$set" := VDict {[ "x" := VInt 100 ]} ]})).
Proof. apply merge_cross_keyword. reflexivity. Defined.

(** C1, as the code has it: when two expressions of a query contribute
    fields under the same keyword, with disjoint field sets or not, and
    no expression after the later of the two contributes under that
    keyword, the merged document holds, under that keyword, the encoded
    fields of the later one and nothing else; the fields of the earlier
    one under that keyword are replaced as a whole, so the result depends
    on the order of the two. *)
Theorem merge_keeps_later_clause (q : UpdateQuery) before e1 e2 after
    (c1 c2 : gmap string value) k (f1 f2 : gmap string value) :
  update_expressions q = before ++ e2 :: after ->
  e1 ∈ before ->
  Forall (fun e => is_Some (clause e)) before ->
  Forall (fun e => exists c, clause e = Some c /\ c !! k = None) after ->
  clause e1 = Some c1 -> clause e2 = Some c2 ->
  c1 !! k = Some (VDict f1) -> c2 !! k = Some (VDict f2) ->
  exists m : gmap string value,
    update_query q = Ok (VDict m) /\
    m !! k = Some (VDict (encode (encoders q) <$> f2)) /\
    dom (encode (encoders q) <$> f2) = dom f2.
Proof.
  intros Hes _ Hbefore Hafter _ H2 _ Hk2.
  destruct (merge_expressions_ok ∅ before Hbefore) as [acc Hacc].
  destruct (merge_expressions_frame (dict_update acc c2) after k Hafter)
    as (acc' & Hacc' & Hk).
  exists (encode (encoders q) <$> acc').
  split; [|split].
  - unfold update_query. rewrite Hes, merge_expressions_app, Hacc.
    change (e2 :: after) with ([e2] ++ after).
    rewrite merge_expressions_app, (merge_expressions_step _ _ _ H2).
    by rewrite Hacc'.
  - rewrite lookup_fmap, Hk, (dict_update_lookup_new _ _ _ _ Hk2).
    reflexivity.
  - apply dom_fmap_L.
Qed.

Lemma merge_keeps_later_clause_witness :
  (exists m : gmap string value,
     update_query
       (with_expressions
          [set_field "a" 1; set_field "b" 2;
           Operator (Max {[ "c" := VInt 3 ]})]) = Ok (VDict m) /\
     m !! "$set" = Some (VDict (encode ∅ <$> {[ "b" := VInt 2 ]})) /\
     dom (encode ∅ <$> ({[ "b" := VInt 2 ]} : gmap string value)) =
       dom ({[ "b" := VInt 2 ]} : gmap string value)) /\
  (exists m : gmap string value,
     update_query (with_expressions [set_field "x" 1; set_field "x" 2]) =
       Ok (VDict m) /\
     m !! "$set" = Some (VDict (encode ∅ <$> {[ "x" := VInt 2 ]})) /\
     dom (encode ∅ <$> ({[ "x" := VInt 2 ]} : gmap string value)) =
       dom ({[ "x" := VInt 2 ]} : gmap string value)).
Proof.
  split.
  - apply (merge_keeps_later_clause
             (with_expressions
                [set_field "a" 1; set_field "b" 2;
                 Operator (Max {[ "c" := VInt 3 ]})])
             [set_field "a" 1] (set_field "a" 1) (set_field "b" 2)
             [Operator (Max {[ "c" := VInt 3 ]})]
             {[ "$set" := VDict {[ "a" := VInt 1 ]} ]}
             {[ "$set" := VDict {[ "b" := VInt 2 ]} ]}
             "$set" {[ "a" := VInt 1 ]} {[ "b" := VInt 2 ]}).
    + reflexivity.
    + apply list_elem_of_here.
    + repeat constructor. by eexists.
    + repeat constructor.
      exists {[ "$max" := VDict {[ "c" := VInt 3 ]} ]}. by split.
    + reflexivity.
    + reflexivity.
    + reflexivity.
    + reflexivity.
  - apply (merge_keeps_later_clause
             (with_expressions [set_field "x" 1; set_field "x" 2])
             [set_field "x" 1] (set_field "x" 1) (set_field "x" 2) []
             {[ "$set" := VDict {[ "x" := VInt 1 ]} ]}
             {[ "$set" := VDict {[ "x" := VInt 2 ]} ]}
             "$set" {[ "x" := VInt 1 ]} {[ "x" := VInt 2 ]}).
    + reflexivity.
    + apply list_elem_of_here.
    + repeat constructor. by eexists.
    + constructor.
    + reflexivity.
    + reflexivity.
    + reflexivity.
    + reflexivity.
Defined.

(** C1, as stated, fails: [{"$set": {"a": 1}}] then [{"$set": {"b": 2}}]
    merges to [{"$set": {"b": 2}}], the other order to
    [{"$set": {"a": 1}}]; the fields under ["$set"] are not the union. *)
Lemma merge_union_counterexample :
  update_query (with_expressions [set_field "a" 1; set_field "b" 2]) =
    Ok (VDict {[ "$set" := VDict {[ "b" := VInt 2 ]} ]}) /\
  update_query (with_expressions [set_field "b" 2; set_field "a" 1]) =
    Ok (VDict {[ "$set" := VDict {[ "a" := VInt 1 ]} ]}) /\
  ~ (exists m f : gmap string value,
       update_query (with_expressions [set_field "a" 1; set_field "b" 2]) =
         Ok (VDict m) /\
       m !! "$set" = Some (VDict f) /\
       dom f = dom ({[ "a" := VInt 1 ]} : gmap string value)
                 ∪ dom ({[ "b" := VInt 2 ]} : gmap string value)).
Proof.
  assert (H12 : update_query
                  (with_expressions [set_field "a" 1; set_field "b" 2]) =
                Ok (VDict {[ "$set" := VDict {[ "b" := VInt 2 ]} ]}))
    by (vm_compute; reflexivity).
  split; [exact H12|]. split; [vm_compute; reflexivity|].
  intros (m & f & Hm & Hf & Hdom).
  rewrite H12 in Hm. injection Hm as <-.
  rewrite lookup_singleton_eq in Hf. injection Hf as <-.
  assert (Ha : "a" ∈ dom ({[ "b" := VInt 2 ]} : gmap string value)).
  { rewrite Hdom, !dom_singleton_L. set_solver. }
  rewrite dom_singleton_L, elem_of_singleton in Ha. discriminate.
Qed.

(** ** The store *)

Lemma store_query_lookup self q w :
  queries (store_query self q w) !! self = Some q.
Proof. apply lookup_insert_eq. Qed.

Lemma store_query_twice self q1 q2 w :
  store_query self q2 (store_query self q1 w) = store_query self q2 w.
Proof. unfold store_query. simpl. by rewrite insert_insert_eq. Qed.

Lemma store_query_same self q w :
  queries w !! self = Some q -> store_query self q w = w.
Proof.
  intros H. destruct w as [qs ws cs]. unfold store_query. simpl in *.
  by rewrite insert_id.
Qed.

Lemma get_query_spec self q w :
  queries w !! self = Some q -> get_query self w = (Ok q, w).
Proof. intros H. unfold get_query. by rewrite H. Qed.

Lemma setattr_spec self f q w :
  queries w !! self = Some q ->
  setattr self f w = (Ok tt, store_query self (f q) w).
Proof.
  intros H. unfold setattr, py_bind. by rewrite (get_query_spec _ _ _ H).
Qed.

(** ** The builder methods refine the transformations of the state *)

Lemma set_session_spec self s q w :
  queries w !! self = Some q ->
  set_session self s w = (Ok self, store_query self (bind_session s q) w).
Proof.
  intros H. destruct s as [c|]; simpl.
  - unfold py_bind. by rewrite (setattr_spec _ _ _ _ H).
  - unfold py_ret. by rewrite (store_query_same _ _ _ H).
Qed.

Lemma update_spec self args s bw kwargs q w :
  queries w !! self = Some q ->
  update self args s bw kwargs w =
  (Ok self, store_query self (update_state args s bw kwargs q) w).
Proof.
  intros H. unfold update, py_bind at 1.
  rewrite (set_session_spec _ _ _ _ H).
  unfold py_bind at 1.
  rewrite (setattr_spec _ _ _ _ (store_query_lookup _ _ _)).
  rewrite store_query_twice.
  unfold py_bind at 1, update_state, bind_bulk_writer.
  destruct (truthy bw).
  - rewrite (setattr_spec _ _ _ _ (store_query_lookup _ _ _)).
    rewrite store_query_twice. unfold py_bind at 1.
    rewrite (setattr_spec _ _ _ _ (store_query_lookup _ _ _)).
    by rewrite store_query_twice.
  - unfold py_ret at 1, py_bind at 1.
    rewrite (setattr_spec _ _ _ _ (store_query_lookup _ _ _)).
    by rewrite store_query_twice.
Qed.

Lemma record_then_update_spec self args d s bw kwargs q w :
  queries w !! self = Some q ->
  record_then_update self args d s bw kwargs w =
  (Ok self, store_query self (upsert_state args d s bw kwargs q) w).
Proof.
  intros H. unfold record_then_update, py_bind.
  rewrite (setattr_spec _ _ _ _ H).
  rewrite (update_spec _ _ _ _ _ _ _ (store_query_lookup _ _ _)).
  by rewrite store_query_twice.
Qed.

Lemma upsert_spec self args d s bw kwargs q w :
  queries w !! self = Some q ->
  upsert self args d s bw kwargs w =
  (Ok self, store_query self (upsert_state args d s bw kwargs q) w).
Proof.
  intros H. unfold upsert, py_bind.
  rewrite (setattr_spec _ _ _ _ H).
  rewrite (update_spec _ _ _ _ _ _ _ (store_query_lookup _ _ _)).
  by rewrite store_query_twice.
Qed.

Lemma perform_spec self c q w :
  queries w !! self = Some q ->
  snd (perform self c w) = store_query self (perform_state c q) w.
Proof.
  intros H. destruct c as [args s bw kw|args d s bw kw|args s bw kw|args s bw kw];
    simpl.
  - by rewrite (update_spec _ _ _ _ _ _ _ H).
  - by rewrite (upsert_spec _ _ _ _ _ _ _ _ H).
  - unfold update_many, py_bind. rewrite (get_query_spec _ _ _ H).
    destruct (cls q); simpl.
    + by rewrite (update_spec _ _ _ _ _ _ _ H).
    + by rewrite (store_query_same _ _ _ H).
  - unfold update_one, py_bind. rewrite (get_query_spec _ _ _ H).
    destruct (cls q); simpl.
    + by rewrite (store_query_same _ _ _ H).
    + by rewrite (update_spec _ _ _ _ _ _ _ H).
Qed.

Lemma perform_all_spec self cs q w :
  queries w !! self = Some q ->
  perform_all self cs w =
  store_query self (fold_left (fun q c => perform_state c q) cs q) w.
Proof.
  revert q w. induction cs as [|c cs IH]; intros q w H; simpl.
  - by rewrite (store_query_same _ _ _ H).
  - rewrite (perform_spec _ _ _ _ H).
    rewrite (IH _ _ (store_query_lookup _ _ _)).
    by rewrite store_query_twice.
Qed.

(** ** What a builder call does to the single attributes *)

Lemma update_state_is_upsert args s bw kwargs q :
  is_upsert (update_state args s bw kwargs q) = is_upsert q.
Proof.
  unfold update_state, bind_bulk_writer, bind_session.
  destruct (truthy bw), s; reflexivity.
Qed.

Lemma update_state_upsert_insert_doc args s bw kwargs q :
  upsert_insert_doc (update_state args s bw kwargs q) = upsert_insert_doc q.
Proof.
  unfold update_state, bind_bulk_writer, bind_session.
  destruct (truthy bw), s; reflexivity.
Qed.

Lemma update_state_bulk_writer args s bw kwargs q :
  bulk_writer (update_state args s bw kwargs q) =
  if truthy bw then bw else bulk_writer q.
Proof.
  unfold update_state, bind_bulk_writer, bind_session.
  destruct (truthy bw), s; reflexivity.
Qed.

Lemma update_state_update_expressions args s bw kwargs q :
  update_expressions (update_state args s bw kwargs q) =
  update_expressions q ++ args.
Proof.
  unfold update_state, bind_bulk_writer, bind_session.
  destruct (truthy bw), s; reflexivity.
Qed.

Lemma perform_state_is_upsert c q :
  is_upsert (perform_state c q) = is_upsert q.
Proof.
  destruct c; unfold perform_state, upsert_state; try destruct (cls q);
    rewrite ?update_state_is_upsert; reflexivity.
Qed.

Lemma perform_state_upsert_insert_doc c q :
  is_Some (upsert_insert_doc (perform_state c q)) <->
  is_upsert_call c = true \/ is_Some (upsert_insert_doc q).
Proof.
  destruct c; unfold perform_state, upsert_state; try destruct (cls q);
    rewrite ?update_state_upsert_insert_doc; cbn;
    intuition (eauto; discriminate).
Qed.

Lemma perform_state_bulk_writer c q :
  bulk_writer (perform_state c q) = bulk_writer q \/
  (truthy (bulk_writer_arg c) = true /\
   bulk_writer (perform_state c q) = bulk_writer_arg c).
Proof.
  destruct c; unfold perform_state, upsert_state; try destruct (cls q);
    rewrite ?update_state_bulk_writer; cbn;
    try (destruct (truthy bw) eqn:Hbw); auto.
Qed.

Lemma fold_is_upsert cs q :
  is_upsert (fold_left (fun q c => perform_state c q) cs q) = is_upsert q.
Proof.
  revert q. induction cs as [|c cs IH]; intros q; simpl; [done|].
  by rewrite IH, perform_state_is_upsert.
Qed.

Lemma fold_upsert_insert_doc cs q :
  is_Some (upsert_insert_doc (fold_left (fun q c => perform_state c q) cs q))
  <->
  Exists (fun c => is_upsert_call c = true) cs \/
  is_Some (upsert_insert_doc q).
Proof.
  revert q. induction cs as [|c cs IH]; intros q; simpl.
  - rewrite Exists_nil. tauto.
  - rewrite IH, perform_state_upsert_insert_doc, Exists_cons. tauto.
Qed.

Lemma fold_bulk_writer_bound cs q :
  is_Some (bulk_writer q) ->
  is_Some (bulk_writer (fold_left (fun q c => perform_state c q) cs q)).
Proof.
  revert q. induction cs as [|c cs IH]; intros q Hq; simpl; [done|].
  apply IH.
  destruct (perform_state_bulk_writer c q) as [->|[Ht ->]]; [done|].
  destruct (bulk_writer_arg c); [eauto|discriminate].
Qed.

Lemma fold_bulk_writer_kept cs q :
  Forall (fun c => bulk_writer_arg c = None) cs ->
  bulk_writer (fold_left (fun q c => perform_state c q) cs q) = bulk_writer q.
Proof.
  intros Hcs. revert q.
  induction Hcs as [|c cs Hc _ IH]; intros q; simpl; [done|].
  rewrite IH.
  destruct (perform_state_bulk_writer c q) as [->|[Ht _]]; [done|].
  rewrite Hc in Ht. discriminate.
Qed.

(** ** The builder *)

(** C8: on a query of the store, [upsert] ends in the very state that
    recording the fallback document and then calling [update] with the
    same arguments ends in; [upsert] and [update] both return the query
    they were called on, and change nothing in the store but the state of
    that query. *)
Theorem upsert_records_then_updates self args d s bw kwargs q w :
  queries w !! self = Some q ->
  upsert self args d s bw kwargs w =
    record_then_update self args d s bw kwargs w /\
  upsert self args d s bw kwargs w =
    (Ok self,
     store_query self
       (update_state args s bw kwargs (set_upsert_insert_doc (Some d) q)) w) /\
  update self args s bw kwargs w =
    (Ok self, store_query self (update_state args s bw kwargs q) w).
Proof.
  intros H. split; [|split].
  - by rewrite (upsert_spec _ _ _ _ _ _ _ _ H),
      (record_then_update_spec _ _ _ _ _ _ _ _ H).
  - apply (upsert_spec _ _ _ _ _ _ _ _ H).
  - apply (update_spec _ _ _ _ _ _ _ H).
Qed.

Lemma upsert_records_then_updates_witness :
  let q := init UpdateManyCls Sample sample_filter in
  let w := world_of q in
  let args := [set_field "x" 1] in
  upsert 1 args sample_doc None (Some 2%positive) ∅ w =
    record_then_update 1 args sample_doc None (Some 2%positive) ∅ w /\
  upsert 1 args sample_doc None (Some 2%positive) ∅ w =
    (Ok 1%positive,
     store_query 1
       (update_state args None (Some 2%positive) ∅
          (set_upsert_insert_doc (Some sample_doc) q)) w) /\
  update 1 args None (Some 2%positive) ∅ w =
    (Ok 1%positive,
     store_query 1 (update_state args None (Some 2%positive) ∅ q) w).
Proof.
  intros q w args.
  apply (upsert_records_then_updates 1 args sample_doc None
           (Some 2%positive) ∅ q w).
  reflexivity.
Defined.

(** C7, as the code has it: after any sequence of builder calls on a
    freshly constructed query, the fallback document is set exactly when
    one of the calls was [upsert], and the [is_upsert] attribute is still
    [False]; no builder call writes it. *)
Theorem fallback_doc_tracks_upsert_calls cs w self c dm fq :
  queries w !! self = Some (init c dm fq) ->
  exists q',
    queries (perform_all self cs w) !! self = Some q' /\
    is_upsert q' = false /\
    (is_Some (upsert_insert_doc q') <->
     Exists (fun c => is_upsert_call c = true) cs).
Proof.
  intros H. rewrite (perform_all_spec _ cs _ _ H).
  eexists. split; [apply store_query_lookup|]. split.
  - by rewrite fold_is_upsert.
  - rewrite fold_upsert_insert_doc. simpl.
    split; [intros [?|[? ?]]; [done|discriminate]|auto].
Qed.

Lemma fallback_doc_tracks_upsert_calls_witness :
  exists q',
    queries
      (perform_all 1
         [CallUpdate [set_field "x" 1] None None ∅;
          CallUpsert [] sample_doc None None ∅]
         (world_of (init UpdateManyCls Sample sample_filter))) !! 1%positive =
      Some q' /\
    is_upsert q' = false /\
    (is_Some (upsert_insert_doc q') <->
     Exists (fun c => is_upsert_call c = true)
       [CallUpdate [set_field "x" 1] None None ∅;
        CallUpsert [] sample_doc None None ∅]).
Proof.
  apply (fallback_doc_tracks_upsert_calls _ _ 1%positive UpdateManyCls Sample
           sample_filter).
  reflexivity.
Defined.

(** C7, as stated, fails: after one [upsert] on a fresh query the fallback
    document is set and the [is_upsert] flag is not. *)
Lemma upsert_flag_counterexample :
  exists q',
    queries
      (perform_all 1 [CallUpsert [] sample_doc None None ∅]
         (world_of (init UpdateManyCls Sample sample_filter))) !! 1%positive =
      Some q' /\
    upsert_insert_doc q' = Some sample_doc /\
    is_upsert q' = false /\
    ~ (is_Some (upsert_insert_doc q') <-> is_upsert q' = true).
Proof.
  exists (upsert_state [] sample_doc None None ∅
            (init UpdateManyCls Sample sample_filter)).
  split; [vm_compute; reflexivity|].
  split; [reflexivity|]. split; [reflexivity|].
  simpl. intros [Hflag _].
  specialize (Hflag (ex_intro _ sample_doc eq_refl)). discriminate.
Qed.

(** C10: once a bulk writer is bound to a query, the query stays bound to
    a bulk writer whatever builder calls follow, and stays bound to that
    very writer when every later call leaves its [bulk_writer] argument
    out or passes [None]. *)
Theorem bound_bulk_writer_stays cs w self q bw :
  queries w !! self = Some q ->
  bulk_writer q = Some bw ->
  (exists bw',
     bulk_writer <$> queries (perform_all self cs w) !! self =
     Some (Some bw')) /\
  (Forall (fun c => bulk_writer_arg c = None) cs ->
   bulk_writer <$> queries (perform_all self cs w) !! self = Some (Some bw)).
Proof.
  intros H Hbw. rewrite (perform_all_spec _ cs _ _ H), store_query_lookup.
  simpl. split.
  - destruct (fold_bulk_writer_bound cs q) as [bw' Hbw']; [by rewrite Hbw|].
    exists bw'. by rewrite Hbw'.
  - intros Hcs. by rewrite (fold_bulk_writer_kept _ _ Hcs), Hbw.
Qed.

Lemma bound_bulk_writer_stays_witness :
  let q := set_bulk_writer (Some 2%positive)
             (init UpdateOneCls Sample sample_filter) in
  let cs := [CallUpdate [set_field "x" 1] None None ∅;
             CallUpsert [] sample_doc None None ∅;
             CallUpdateOne [] (Some (Session 5)) None ∅] in
  (exists bw',
     bulk_writer <$> queries (perform_all 1 cs (world_of q)) !! 1%positive =
     Some (Some bw')) /\
  bulk_writer <$> queries (perform_all 1 cs (world_of q)) !! 1%positive =
  Some (Some 2%positive).
Proof.
  intros q cs.
  destruct (bound_bulk_writer_stays cs (world_of q) 1%positive q 2%positive)
    as [Hbound Hkept]; [reflexivity|reflexivity|].
  split; [exact Hbound|]. apply Hkept. repeat constructor.
Defined.

(** ** Execution *)

Lemma update_primitive_raises drv self q e w :
  queries w !! self = Some q ->
  update_query q = Raise e ->
  _update drv self w = (Raise e, w).
Proof.
  intros H Hq. unfold _update, py_bind. rewrite (get_query_spec _ _ _ H).
  destruct (cls q).
  - unfold UpdateMany_update, py_bind. rewrite (get_query_spec _ _ _ H).
    destruct (bulk_writer q); unfold py_lift; by rewrite Hq.
  - unfold UpdateOne_update, py_bind. rewrite (get_query_spec _ _ _ H).
    destruct (bulk_writer q); simpl; unfold py_bind, py_lift; by rewrite Hq.
Qed.

Lemma update_primitive_immediate drv self q doc w :
  queries w !! self = Some q ->
  bulk_writer q = None ->
  update_query q = Ok doc ->
  _update drv self w =
  (match reply_update drv (calls w) (update_call q doc) with
   | Ok r => Ok (Some r)
   | Raise e => Raise e
   end,
   record_call (update_call q doc) w).
Proof.
  intros H Hbw Hq. unfold _update, update_call, py_bind.
  rewrite (get_query_spec _ _ _ H).
  destruct (cls q).
  - unfold UpdateMany_update, py_bind. rewrite (get_query_spec _ _ _ H), Hbw.
    unfold py_lift, call_update. rewrite Hq.
    by destruct (reply_update drv _ _).
  - unfold UpdateOne_update, py_bind. rewrite (get_query_spec _ _ _ H), Hbw.
    simpl. unfold py_bind, py_lift, call_update. rewrite Hq.
    by destruct (reply_update drv _ _).
Qed.

Lemma update_primitive_batched drv self q bw ops doc w :
  queries w !! self = Some q ->
  bulk_writer q = Some bw ->
  writers w !! bw = Some ops ->
  update_query q = Ok doc ->
  _update drv self w =
  (Ok None, store_operations bw (ops ++ [pending_operation q doc]) w).
Proof.
  intros H Hbw Hops Hq. unfold _update, pending_operation, py_bind.
  rewrite (get_query_spec _ _ _ H).
  destruct (cls q).
  - unfold UpdateMany_update, py_bind. rewrite (get_query_spec _ _ _ H), Hbw.
    unfold py_lift, add_operation. by rewrite Hq, Hops.
  - unfold UpdateOne_update, py_bind. rewrite (get_query_spec _ _ _ H), Hbw.
    simpl. unfold py_bind, py_lift, add_operation. by rewrite Hq, Hops.
Qed.

(** C2: for a query in upsert mode that has no bulk writer, when the
    update matched nothing [run] makes one insert of the fallback
    document, with the session and the bulk-writer binding of the query,
    and returns what the insert returns; when the update matched one
    document or more, [run] returns the result of the update and makes no
    insert. *)
Theorem run_upsert_fallback drv w self q d doc r :
  queries w !! self = Some q ->
  upsert_insert_doc q = Some d ->
  bulk_writer q = None ->
  update_query q = Ok doc ->
  reply_update drv (calls w) (update_call q doc) = Ok r ->
  ((matched_count r = 0)%Z ->
   run drv self w =
   (insert_outcome
      (reply_insert drv (calls w ++ [update_call q doc]) (insert_call q d)),
    {| queries := queries w;
       writers := writers w;
       calls := calls w ++ [update_call q doc; insert_call q d] |})) /\
  ((1 <= matched_count r)%Z ->
   run drv self w =
   (Ok (UpdateRes r),
    {| queries := queries w;
       writers := writers w;
       calls := calls w ++ [update_call q doc] |})).
Proof.
  intros H Hd Hbw Hq Hr.
  assert (Hrun : run drv self w =
                 if (matched_count r =? 0)%Z then
                   (insert_outcome
                      (reply_insert drv (calls w ++ [update_call q doc])
                         (insert_call q d)),
                    record_call (insert_call q d)
                      (record_call (update_call q doc) w))
                 else (Ok (UpdateRes r), record_call (update_call q doc) w)).
  { unfold run, py_bind at 1.
    rewrite (update_primitive_immediate _ _ _ _ _ H Hbw Hq), Hr.
    unfold py_bind at 1.
    rewrite (get_query_spec self q (record_call (update_call q doc) w) H), Hd.
    destruct (matched_count r =? 0)%Z; [|reflexivity].
    unfold py_bind, call_insert, insert_call. simpl.
    by destruct (reply_insert drv _ _). }
  rewrite Hrun. split.
  - intros ->. simpl. unfold record_call. simpl. by rewrite <- app_assoc.
  - intros Hpos. destruct (Z.eqb_spec (matched_count r) 0) as [H0|_]; [lia|].
    reflexivity.
Qed.

Lemma run_upsert_fallback_witness :
  let q := set_upsert_insert_doc (Some sample_doc)
             (with_expressions [set_field "x" 1]) in
  let doc := VDict {[ "$set" := VDict {[ "x" := VInt 1 ]} ]} in
  run (matching 0) 1 (world_of q) =
    (Ok (InsertRes {| inserted_id := VInt 7 |}),
     {| queries := queries (world_of q);
        writers := writers (world_of q);
        calls := [update_call q doc; insert_call q sample_doc] |}) /\
  run (matching 2) 1 (world_of q) =
    (Ok (UpdateRes {| matched_count := 2; modified_count := 2;
                      upserted_id := None |}),
     {| queries := queries (world_of q);
        writers := writers (world_of q);
        calls := [update_call q doc] |}).
Proof.
  intros q doc. split.
  - destruct (run_upsert_fallback (matching 0) (world_of q) 1%positive q
                sample_doc doc
                {| matched_count := 0; modified_count := 0;
                   upserted_id := None |}) as [Hzero _];
      [reflexivity..|].
    apply Hzero. reflexivity.
  - destruct (run_upsert_fallback (matching 2) (world_of q) 1%positive q
                sample_doc doc
                {| matched_count := 2; modified_count := 2;
                   upserted_id := None |}) as [_ Hsome];
      [reflexivity..|].
    apply Hsome. simpl. lia.
Defined.

(** C3: for a query bound to a bulk writer, [run] adds one pending
    operation to that writer (of the kind of the query, with the filter,
    the merged update document and the model type) and returns no result,
    whether or not a fallback document is set; no call to the driver is
    made, the insert included. *)
Theorem run_batched drv w self q bw ops doc :
  queries w !! self = Some q ->
  bulk_writer q = Some bw ->
  writers w !! bw = Some ops ->
  update_query q = Ok doc ->
  run drv self w =
  (Ok NoResult,
   {| queries := queries w;
      writers := <[bw := ops ++ [pending_operation q doc]]> (writers w);
      calls := calls w |}).
Proof.
  intros H Hbw Hops Hq. unfold run, py_bind at 1.
  rewrite (update_primitive_batched _ _ _ _ _ _ _ H Hbw Hops Hq).
  unfold py_bind.
  rewrite (get_query_spec self q
             (store_operations bw (ops ++ [pending_operation q doc]) w) H).
  by destruct (upsert_insert_doc q).
Qed.

Lemma run_batched_witness :
  let q := set_bulk_writer (Some 2%positive)
             (set_upsert_insert_doc (Some sample_doc)
                (with_expressions [set_field "x" 1])) in
  let doc := VDict {[ "$set" := VDict {[ "x" := VInt 1 ]} ]} in
  run (matching 0) 1 (world_of q) =
  (Ok NoResult,
   {| queries := queries (world_of q);
      writers := <[2%positive := [] ++ [pending_operation q doc]]>
                   (writers (world_of q));
      calls := calls (world_of q) |}).
Proof.
  intros q doc.
  apply (run_batched (matching 0) (world_of q) 1%positive q 2%positive []
           doc); reflexivity.
Defined.

(** C6: when the expressions of a query hold an object that is neither an
    update operator nor a mapping, reading [update_query] raises the
    wrong-expression-type error, and [run] raises it with the store as it
    was: no call to the driver, nothing added to a bulk writer. *)
Theorem invalid_expression_rejected drv w self q e :
  queries w !! self = Some q ->
  e ∈ update_expressions q ->
  is_operator e = false ->
  is_raw_mapping e = false ->
  update_query q = Raise (TypeError "Wrong expression type") /\
  run drv self w = (Raise (TypeError "Wrong expression type"), w).
Proof.
  intros H Hin Hop Hmap.
  assert (Hc : clause e = None) by (destruct e; done).
  pose proof (update_query_raise _ _ Hin Hc) as Hq.
  split; [exact Hq|].
  unfold run, py_bind at 1.
  by rewrite (update_primitive_raises _ _ _ _ _ H Hq).
Qed.

Lemma invalid_expression_rejected_witness :
  let q := with_expressions [set_field "x" 1; Other (IntObj 5)] in
  update_query q = Raise (TypeError "Wrong expression type") /\
  run (matching 1) 1 (world_of q) =
    (Raise (TypeError "Wrong expression type"), world_of q).
Proof.
  intros q.
  apply (invalid_expression_rejected (matching 1) (world_of q) 1%positive q
           (Other (IntObj 5))).
  - reflexivity.
  - simpl. apply list_elem_of_further, list_elem_of_here.
  - reflexivity.
  - reflexivity.
Defined.

(** C9: [update] takes a mapping that is not a [dict] without complaint,
    and from then on reading [update_query] raises the wrong-expression-type
    error: the merge takes operator objects and [dict] instances only. *)
Theorem non_dict_mapping_rejected self args s bw kwargs q w e :
  queries w !! self = Some q ->
  e ∈ args ->
  is_raw_mapping e = true ->
  is_dict e = false ->
  (forall q0, e ∈ update_expressions q0 ->
     update_query q0 = Raise (TypeError "Wrong expression type")) /\
  exists q',
    update self args s bw kwargs w = (Ok self, store_query self q' w) /\
    e ∈ update_expressions q' /\
    update_query q' = Raise (TypeError "Wrong expression type").
Proof.
  intros H Hin Hmap Hdict.
  assert (Hc : clause e = None) by (destruct e; done).
  assert (Hall : forall q0, e ∈ update_expressions q0 ->
            update_query q0 = Raise (TypeError "Wrong expression type")).
  { intros q0 Hq0. by apply (update_query_raise q0 e). }
  split; [exact Hall|].
  exists (update_state args s bw kwargs q).
  assert (Hin' : e ∈ update_expressions (update_state args s bw kwargs q)).
  { rewrite update_state_update_expressions, elem_of_app. by right. }
  split; [apply (update_spec _ _ _ _ _ _ _ H)|]. split; [exact Hin'|].
  by apply Hall.
Qed.

Lemma non_dict_mapping_rejected_witness :
  let q := init UpdateManyCls Sample sample_filter in
  let e := Mapping {[ "$set" := VDict {[ "x" := VInt 1 ]} ]} in
  (forall q0, e ∈ update_expressions q0 ->
     update_query q0 = Raise (TypeError "Wrong expression type")) /\
  exists q',
    update 1 [e] None None ∅ (world_of q) =
      (Ok 1%positive, store_query 1 q' (world_of q)) /\
    e ∈ update_expressions q' /\
    update_query q' = Raise (TypeError "Wrong expression type").
Proof.
  intros q e.
  apply (non_dict_mapping_rejected 1%positive [e] None None ∅ q
           (world_of q) e).
  - reflexivity.
  - apply list_elem_of_here.
  - reflexivity.
  - reflexivity.
Defined.

(** * Further properties of the code *)

(** ** The merge, on any sequence of expressions *)

Lemma merge_expressions_cons acc e es c :
  clause e = Some c ->
  merge_expressions acc (e :: es) = merge_expressions (dict_update acc c) es.
Proof. destruct e; simpl; intros H; try discriminate; by inversion H. Qed.

Lemma merge_expressions_cases acc es :
  (exists acc', merge_expressions acc es = Ok acc' /\
     Forall (fun e => is_mergeable e = true) es) \/
  (merge_expressions acc es = Raise (TypeError "Wrong expression type") /\
     Exists (fun e => is_mergeable e = false) es).
Proof.
  revert acc. induction es as [|e es IH]; intros acc.
  - left. exists acc. by split.
  - destruct e as [op|d|items|o]; simpl.
    + destruct (IH (dict_update acc (query op))) as [(a & Ha & Hall)|[Hr Hex]].
      * left. exists a. split; [done|]. by constructor.
      * right. split; [done|]. by apply Exists_cons_tl.
    + destruct (IH (dict_update acc d)) as [(a & Ha & Hall)|[Hr Hex]].
      * left. exists a. split; [done|]. by constructor.
      * right. split; [done|]. by apply Exists_cons_tl.
    + right. split; [done|]. by apply Exists_cons_hd.
    + right. split; [done|]. by apply Exists_cons_hd.
Qed.

Lemma mergeable_not_both es :
  Forall (fun e => is_mergeable e = true) es ->
  Exists (fun e => is_mergeable e = false) es -> False.
Proof.
  intros Hall Hex. apply Exists_exists in Hex as (e & Hin & He).
  rewrite Forall_forall in Hall. specialize (Hall e Hin). congruence.
Qed.

(** X1: the loop of [update_query] runs to its end exactly when every
    expression of the query is an operator object or a [dict], and raises
    the wrong-expression-type error exactly when some expression is
    neither.  So [update_query] raises that error whenever some
    expression is neither, and returns a document only when every
    expression is an operator object or a [dict]; what the encoder makes
    of the merged dictionary is not part of this. *)
Theorem merge_loop_outcomes (q : UpdateQuery) :
  ((exists acc, merge_expressions ∅ (update_expressions q) = Ok acc) <->
   Forall (fun e => is_mergeable e = true) (update_expressions q)) /\
  (merge_expressions ∅ (update_expressions q) =
     Raise (TypeError "Wrong expression type") <->
   Exists (fun e => is_mergeable e = false) (update_expressions q)) /\
  (Exists (fun e => is_mergeable e = false) (update_expressions q) ->
   update_query q = Raise (TypeError "Wrong expression type")) /\
  ((exists doc, update_query q = Ok doc) ->
   Forall (fun e => is_mergeable e = true) (update_expressions q)).
Proof.
  unfold update_query.
  destruct (merge_expressions_cases ∅ (update_expressions q))
    as [(a & Ha & Hall)|[Hr Hex]].
  - rewrite Ha. split; [|split; [|split]].
    + split; [done|]. intros _. by eexists.
    + split; [discriminate|].
      intros Hex. destruct (mergeable_not_both _ Hall Hex).
    + intros Hex. destruct (mergeable_not_both _ Hall Hex).
    + done.
  - rewrite Hr. split; [|split; [|split]].
    + split.
      * intros [acc Hacc]. discriminate.
      * intros Hall. destruct (mergeable_not_both _ Hall Hex).
    + done.
    + done.
    + intros [doc Hdoc]. discriminate.
Qed.

Lemma merge_loop_outcomes_witness :
  update_query (with_expressions [set_field "x" 1; Other NoneObj]) =
  Raise (TypeError "Wrong expression type").
Proof.
  apply (proj1 (proj2 (proj2
           (merge_loop_outcomes
              (with_expressions [set_field "x" 1; Other NoneObj]))))).
  apply Exists_cons_tl, Exists_cons_hd. reflexivity.
Defined.

Lemma dict_update_lookup (d other : gmap string value) k :
  dict_update d other !! k =
  match other !! k with Some v => Some v | None => d !! k end.
Proof.
  destruct (other !! k) as [v|] eqn:Hk.
  - by apply dict_update_lookup_new.
  - by apply dict_update_lookup_old.
Qed.

Lemma merge_expressions_lookup acc es acc' k :
  merge_expressions acc es = Ok acc' ->
  acc' !! k = last_clause_from (acc !! k) k es.
Proof.
  revert acc. induction es as [|e es IH]; intros acc; simpl.
  - intros H. by inversion H.
  - destruct e as [op|d|items|o]; simpl; try discriminate; intros H;
      rewrite (IH _ H), dict_update_lookup; reflexivity.
Qed.

(** X2: in the merged update document every keyword holds the encoded
    clause of the last expression that has this keyword, and a keyword no
    expression has is absent. *)
Theorem merged_document_lookup (q : UpdateQuery) (m : gmap string value) k :
  update_query q = Ok (VDict m) ->
  m !! k = encode (encoders q) <$> last_clause k (update_expressions q).
Proof.
  unfold update_query.
  destruct (merge_expressions ∅ (update_expressions q)) as [acc|e] eqn:Hacc;
    [|discriminate].
  intros H. injection H as <-.
  rewrite lookup_fmap, (merge_expressions_lookup _ _ _ k Hacc).
  by rewrite lookup_empty.
Qed.

Lemma merged_document_lookup_witness :
  (<[ "$max" := VDict {[ "x" := VInt 10 ]} ]>
     {[ "$set" := VDict {[ "x" := VInt 100 ]} ]} : gmap string value)
    !! "$set" =
  encode ∅ <$>
    last_clause "$set"
      [set_field "x" 1; Operator (Max {[ "x" := VInt 10 ]});
       set_field "x" 100].
Proof.
  apply (merged_document_lookup
           (with_expressions
              [set_field "x" 1; Operator (Max {[ "x" := VInt 10 ]});
               set_field "x" 100])).
  vm_compute. reflexivity.
Defined.

Lemma dict_update_comm (acc c1 c2 : gmap string value) :
  dom c1 ## dom c2 ->
  dict_update (dict_update acc c1) c2 = dict_update (dict_update acc c2) c1.
Proof.
  intros Hdis. unfold dict_update.
  rewrite !map_union_assoc. f_equal.
  apply map_union_comm. by apply map_disjoint_dom.
Qed.

(** X3: two neighbouring expressions whose clauses share no keyword can be
    swapped without changing what [update_query] returns, whatever comes
    before and after them. *)
Theorem merge_disjoint_keywords_commute (q : UpdateQuery) pre e1 e2 post
    (c1 c2 : gmap string value) :
  clause e1 = Some c1 -> clause e2 = Some c2 ->
  dom c1 ## dom c2 ->
  update_query (set_update_expressions (pre ++ e1 :: e2 :: post) q) =
  update_query (set_update_expressions (pre ++ e2 :: e1 :: post) q).
Proof.
  intros H1 H2 Hdis. unfold update_query. simpl.
  rewrite !merge_expressions_app.
  destruct (merge_expressions ∅ pre) as [acc|e]; [|reflexivity].
  rewrite (merge_expressions_cons _ _ _ _ H1),
    (merge_expressions_cons _ _ _ _ H2),
    (merge_expressions_cons _ _ _ _ H2),
    (merge_expressions_cons _ _ _ _ H1).
  by rewrite (dict_update_comm _ _ _ Hdis).
Qed.

Lemma merge_disjoint_keywords_commute_witness :
  update_query
    (set_update_expressions
       ([set_field "y" 0] ++
        Operator (Max {[ "x" := VInt 10 ]}) :: set_field "x" 100 :: [])
       (init UpdateManyCls Sample sample_filter)) =
  update_query
    (set_update_expressions
       ([set_field "y" 0] ++
        set_field "x" 100 :: Operator (Max {[ "x" := VInt 10 ]}) :: [])
       (init UpdateManyCls Sample sample_filter)).
Proof.
  apply (merge_disjoint_keywords_commute _ _ _ _ _
           {[ "$max" := VDict {[ "x" := VInt 10 ]} ]}
           {[ "$set" := VDict {[ "x" := VInt 100 ]} ]}).
  - reflexivity.
  - reflexivity.
  - rewrite !dom_singleton_L. apply disjoint_singleton_l.
    rewrite elem_of_singleton. discriminate.
Defined.

(** ** Sequences of builder calls *)

Lemma update_state_frame args s bw kwargs q :
  cls (update_state args s bw kwargs q) = cls q /\
  document_model (update_state args s bw kwargs q) = document_model q /\
  find_query (update_state args s bw kwargs q) = find_query q /\
  encoders (update_state args s bw kwargs q) = encoders q.
Proof.
  unfold update_state, bind_bulk_writer, bind_session.
  destruct (truthy bw), s; done.
Qed.

Lemma perform_state_frame c q :
  cls (perform_state c q) = cls q /\
  document_model (perform_state c q) = document_model q /\
  find_query (perform_state c q) = find_query q /\
  encoders (perform_state c q) = encoders q.
Proof.
  destruct c; unfold perform_state, upsert_state; try destruct (cls q) eqn:Hk;
    try (by rewrite Hk);
    match goal with
    | |- context [update_state ?a ?s ?b ?k ?q0] =>
        destruct (update_state_frame a s b k q0) as (-> & -> & -> & ->)
    end; done.
Qed.

Lemma perform_state_update_expressions c q :
  update_expressions (perform_state c q) =
  update_expressions q ++ (if has_method (cls q) c then args_of c else []).
Proof.
  destruct c; unfold perform_state, upsert_state; cbn [has_method args_of];
    try destruct (cls q); rewrite ?update_state_update_expressions;
    rewrite ?app_nil_r; reflexivity.
Qed.

Lemma perform_state_last_on_insert c q :
  upsert_insert_doc (perform_state c q) =
  match c with
  | CallUpsert _ d _ _ _ => Some d
  | _ => upsert_insert_doc q
  end.
Proof.
  destruct c; unfold perform_state, upsert_state; try destruct (cls q);
    rewrite ?update_state_upsert_insert_doc; reflexivity.
Qed.

Lemma fold_frame cs q :
  let q' := fold_left (fun q c => perform_state c q) cs q in
  cls q' = cls q /\ document_model q' = document_model q /\
  find_query q' = find_query q /\ encoders q' = encoders q.
Proof.
  revert q. induction cs as [|c cs IH]; intros q; simpl; [done|].
  destruct (IH (perform_state c q)) as (-> & -> & -> & ->).
  apply perform_state_frame.
Qed.

Lemma fold_update_expressions cs q :
  update_expressions (fold_left (fun q c => perform_state c q) cs q) =
  update_expressions q ++ appended (cls q) cs.
Proof.
  revert q. induction cs as [|c cs IH]; intros q; simpl.
  - by rewrite app_nil_r.
  - rewrite IH, perform_state_update_expressions.
    destruct (perform_state_frame c q) as (-> & _).
    by rewrite <- app_assoc.
Qed.

Lemma fold_last_on_insert cs q :
  upsert_insert_doc (fold_left (fun q c => perform_state c q) cs q) =
  last_on_insert cs (upsert_insert_doc q).
Proof.
  revert q. induction cs as [|c cs IH]; intros q; simpl; [done|].
  by rewrite IH, perform_state_last_on_insert.
Qed.

(** X4: over any sequence of builder calls the expressions of a query only
    grow: afterwards they are the expressions it had, followed by the
    arguments of the calls in the order the calls were made (a call of a
    method the class of the query lacks adds nothing). *)
Theorem expressions_accumulate_in_call_order cs w self q :
  queries w !! self = Some q ->
  update_expressions <$> queries (perform_all self cs w) !! self =
  Some (update_expressions q ++ appended (cls q) cs).
Proof.
  intros H. rewrite (perform_all_spec _ cs _ _ H), store_query_lookup.
  simpl. by rewrite fold_update_expressions.
Qed.

Lemma expressions_accumulate_in_call_order_witness :
  update_expressions <$>
    queries
      (perform_all 1
         [CallUpdate [set_field "a" 1] None None ∅;
          CallUpdateOne [set_field "b" 2] None None ∅;
          CallUpsert [set_field "c" 3] sample_doc None None ∅]
         (world_of (with_expressions [set_field "x" 0]))) !! 1%positive =
  Some (update_expressions (with_expressions [set_field "x" 0]) ++
        appended UpdateManyCls
          [CallUpdate [set_field "a" 1] None None ∅;
           CallUpdateOne [set_field "b" 2] None None ∅;
           CallUpsert [set_field "c" 3] sample_doc None None ∅]).
Proof.
  apply (expressions_accumulate_in_call_order _ _ 1%positive
           (with_expressions [set_field "x" 0])).
  reflexivity.
Defined.

Lemma update_query_raise_app q q' more e :
  update_query q = Raise e ->
  update_expressions q' = update_expressions q ++ more ->
  update_query q' = Raise e.
Proof.
  unfold update_query. intros Hq ->. rewrite merge_expressions_app.
  destruct (merge_expressions ∅ (update_expressions q)); [discriminate|].
  exact Hq.
Qed.

(** X5: a query whose [update_query] raises cannot be repaired through the
    builder: after any further builder calls [update_query] raises the
    same error. *)
Theorem rejected_query_stays_rejected cs w self q e :
  queries w !! self = Some q ->
  update_query q = Raise e ->
  update_query <$> queries (perform_all self cs w) !! self = Some (Raise e).
Proof.
  intros H Hq. rewrite (perform_all_spec _ cs _ _ H), store_query_lookup.
  simpl. f_equal.
  apply (update_query_raise_app q _ (appended (cls q) cs) e Hq).
  apply fold_update_expressions.
Qed.

Lemma rejected_query_stays_rejected_witness :
  update_query <$>
    queries
      (perform_all 1
         [CallUpdate [set_field "a" 1] None None ∅;
          CallUpsert [] sample_doc None None ∅]
         (world_of (with_expressions [Other NoneObj]))) !! 1%positive =
  Some (Raise (TypeError "Wrong expression type")).
Proof.
  apply (rejected_query_stays_rejected _ _ 1%positive
           (with_expressions [Other NoneObj])); reflexivity.
Defined.

(** X6: over any sequence of builder calls the class of a query, its
    document model, its filter and its encoders stay what the constructor
    made them. *)
Theorem builder_keeps_constructor_attributes cs w self q :
  queries w !! self = Some q ->
  exists q',
    queries (perform_all self cs w) !! self = Some q' /\
    cls q' = cls q /\
    document_model q' = document_model q /\
    find_query q' = find_query q /\
    encoders q' = encoders q.
Proof.
  intros H. rewrite (perform_all_spec _ cs _ _ H).
  eexists. split; [apply store_query_lookup|]. apply fold_frame.
Qed.

Lemma builder_keeps_constructor_attributes_witness :
  exists q',
    queries
      (perform_all 1
         [CallUpdate [set_field "a" 1] (Some (Session 3)) (Some 2%positive)
            {[ "upsert" := VBool true ]};
          CallUpsert [] sample_doc None None ∅]
         (world_of (init UpdateOneCls Sample sample_filter))) !! 1%positive =
      Some q' /\
    cls q' = UpdateOneCls /\
    document_model q' = Sample /\
    find_query q' = sample_filter /\
    encoders q' = ∅.
Proof.
  apply (builder_keeps_constructor_attributes _ _ 1%positive
           (init UpdateOneCls Sample sample_filter)).
  reflexivity.
Defined.

(** X7: after any sequence of builder calls the fallback document of a
    query is the [on_insert] of the last [upsert] among them, or the one
    it had when there was none; no call clears it. *)
Theorem last_upsert_sets_fallback_doc cs w self q :
  queries w !! self = Some q ->
  upsert_insert_doc <$> queries (perform_all self cs w) !! self =
  Some (last_on_insert cs (upsert_insert_doc q)).
Proof.
  intros H. rewrite (perform_all_spec _ cs _ _ H), store_query_lookup.
  simpl. by rewrite fold_last_on_insert.
Qed.

Lemma last_upsert_sets_fallback_doc_witness :
  upsert_insert_doc <$>
    queries
      (perform_all 1
         [CallUpsert [] sample_doc None None ∅;
          CallUpsert [] {| fields := ∅ |} None None ∅;
          CallUpdate [set_field "a" 1] None None ∅]
         (world_of (init UpdateManyCls Sample sample_filter))) !! 1%positive =
  Some (last_on_insert
          [CallUpsert [] sample_doc None None ∅;
           CallUpsert [] {| fields := ∅ |} None None ∅;
           CallUpdate [set_field "a" 1] None None ∅]
          None).
Proof.
  apply (last_upsert_sets_fallback_doc _ _ 1%positive
           (init UpdateManyCls Sample sample_filter)).
  reflexivity.
Defined.

Lemma setattr_unallocated self f w :
  queries w !! self = None -> setattr self f w = (Raise InvalidReference, w).
Proof. intros H. unfold setattr, py_bind, get_query. by rewrite H. Qed.

Lemma update_unallocated self args s bw kwargs w :
  queries w !! self = None -> snd (update self args s bw kwargs w) = w.
Proof.
  intros H. unfold update, set_session.
  destruct s; unfold py_bind, py_ret; by rewrite (setattr_unallocated _ _ _ H).
Qed.

Lemma perform_unallocated self c w :
  queries w !! self = None -> snd (perform self c w) = w.
Proof.
  intros H. destruct c; simpl.
  - by apply update_unallocated.
  - unfold upsert, py_bind. by rewrite (setattr_unallocated _ _ _ H).
  - unfold update_many, py_bind, get_query. by rewrite H.
  - unfold update_one, py_bind, get_query. by rewrite H.
Qed.

Lemma perform_changes_self_only self c w :
  snd (perform self c w) = w \/
  exists q', snd (perform self c w) = store_query self q' w.
Proof.
  destruct (queries w !! self) as [q|] eqn:H.
  - right. exists (perform_state c q). by apply perform_spec.
  - left. by apply perform_unallocated.
Qed.

(** X8: building never reaches beyond the query: whatever builder calls
    are made on a query, no call to the driver is made, no bulk writer
    receives an operation, and every other query of the store is as
    before. *)
Theorem builder_touches_only_its_query cs self w :
  calls (perform_all self cs w) = calls w /\
  writers (perform_all self cs w) = writers w /\
  forall other, other ≠ self ->
    queries (perform_all self cs w) !! other = queries w !! other.
Proof.
  revert w. induction cs as [|c cs IH]; intros w; simpl; [done|].
  destruct (IH (snd (perform self c w))) as (Hc & Hw & Hq).
  rewrite Hc, Hw.
  destruct (perform_changes_self_only self c w) as [Hsame|[q' Hput]].
  - rewrite Hsame in *. done.
  - rewrite Hput in *. split; [done|]. split; [done|].
    intros other Hne. rewrite (Hq other Hne).
    unfold store_query. simpl. by apply lookup_insert_ne.
Qed.

(** ** Execution, in every case *)

Lemma run_immediate_spec drv self q doc w :
  queries w !! self = Some q ->
  bulk_writer q = None ->
  update_query q = Ok doc ->
  run drv self w =
  match reply_update drv (calls w) (update_call q doc) with
  | Raise e => (Raise e, record_call (update_call q doc) w)
  | Ok r =>
      match upsert_insert_doc q with
      | None => (Ok (UpdateRes r), record_call (update_call q doc) w)
      | Some d =>
          if (matched_count r =? 0)%Z then
            (insert_outcome
               (reply_insert drv (calls w ++ [update_call q doc])
                  (insert_call q d)),
             record_call (insert_call q d)
               (record_call (update_call q doc) w))
          else (Ok (UpdateRes r), record_call (update_call q doc) w)
      end
  end.
Proof.
  intros H Hbw Hq. unfold run, py_bind at 1.
  rewrite (update_primitive_immediate _ _ _ _ _ H Hbw Hq).
  destruct (reply_update drv _ _) as [r|e]; [|reflexivity].
  unfold py_bind at 1.
  rewrite (get_query_spec self q (record_call (update_call q doc) w) H).
  destruct (upsert_insert_doc q) as [d|]; [|reflexivity].
  destruct (matched_count r =? 0)%Z; [|reflexivity].
  unfold py_bind, call_insert, insert_call. simpl.
  by destruct (reply_insert drv _ _).
Qed.

Lemma run_enqueue_spec drv self q bw ops doc w :
  queries w !! self = Some q ->
  bulk_writer q = Some bw ->
  writers w !! bw = Some ops ->
  update_query q = Ok doc ->
  run drv self w =
  (Ok NoResult, store_operations bw (ops ++ [pending_operation q doc]) w).
Proof.
  intros H Hbw Hops Hq. unfold run, py_bind at 1.
  rewrite (update_primitive_batched _ _ _ _ _ _ _ H Hbw Hops Hq).
  unfold py_bind.
  rewrite (get_query_spec self q
             (store_operations bw (ops ++ [pending_operation q doc]) w) H).
  by destruct (upsert_insert_doc q).
Qed.

Lemma run_raises_unchanged drv self w :
  queries w !! self = None \/
  (exists q e, queries w !! self = Some q /\ update_query q = Raise e) \/
  (exists q bw, queries w !! self = Some q /\ bulk_writer q = Some bw /\
     writers w !! bw = None) ->
  exists e, run drv self w = (Raise e, w).
Proof.
  intros [H|[(q & e & H & Hq)|(q & bw & H & Hbw & Hops)]].
  - exists InvalidReference. unfold run, _update, py_bind, get_query.
    by rewrite H.
  - exists e. unfold run, py_bind at 1.
    by rewrite (update_primitive_raises _ _ _ _ _ H Hq).
  - destruct (update_query q) as [doc|e] eqn:Hq.
    + exists InvalidReference. unfold run, _update, py_bind.
      rewrite (get_query_spec _ _ _ H).
      destruct (cls q).
      * unfold UpdateMany_update, py_bind.
        rewrite (get_query_spec _ _ _ H), Hbw.
        unfold py_lift, add_operation. by rewrite Hq, Hops.
      * unfold UpdateOne_update, py_bind.
        rewrite (get_query_spec _ _ _ H), Hbw. simpl.
        unfold py_bind, py_lift, add_operation. by rewrite Hq, Hops.
    + exists e. unfold run, py_bind at 1.
      by rewrite (update_primitive_raises _ _ _ _ _ H Hq).
Qed.

(** The three ways [run] can go: it raises before anything happened; it
    takes the immediate path; it hands one operation to the bulk writer. *)
Lemma run_cases drv self w :
  (exists e, run drv self w = (Raise e, w)) \/
  (exists q doc,
     queries w !! self = Some q /\ bulk_writer q = None /\
     update_query q = Ok doc) \/
  (exists q bw ops doc,
     queries w !! self = Some q /\ bulk_writer q = Some bw /\
     writers w !! bw = Some ops /\ update_query q = Ok doc).
Proof.
  destruct (queries w !! self) as [q|] eqn:H.
  - destruct (update_query q) as [doc|e] eqn:Hq.
    + destruct (bulk_writer q) as [bw|] eqn:Hbw.
      * destruct (writers w !! bw) as [ops|] eqn:Hops.
        -- right. right. by exists q, bw, ops, doc.
        -- left. apply run_raises_unchanged. right. right. by exists q, bw.
      * right. left. by exists q, doc.
    + left. apply run_raises_unchanged. right. left. by exists q, e.
  - left. apply run_raises_unchanged. by left.
Qed.

(** X9: for a query without fallback document and without bulk writer,
    [run] makes the one update call and returns its outcome as it is: the
    result whatever its matched count, zero included, or the error of the
    driver; no insert is made. *)
Theorem run_plain_update drv w self q doc :
  queries w !! self = Some q ->
  upsert_insert_doc q = None ->
  bulk_writer q = None ->
  update_query q = Ok doc ->
  run drv self w =
  (match reply_update drv (calls w) (update_call q doc) with
   | Ok r => Ok (UpdateRes r)
   | Raise e => Raise e
   end,
   {| queries := queries w;
      writers := writers w;
      calls := calls w ++ [update_call q doc] |}).
Proof.
  intros H Hd Hbw Hq. rewrite (run_immediate_spec _ _ _ _ _ H Hbw Hq), Hd.
  by destruct (reply_update drv _ _).
Qed.

Lemma run_plain_update_witness :
  let q := with_expressions [set_field "x" 1] in
  let doc := VDict {[ "$set" := VDict {[ "x" := VInt 1 ]} ]} in
  run (matching 0) 1 (world_of q) =
  (match reply_update (matching 0) (calls (world_of q)) (update_call q doc)
   with
   | Ok r => Ok (UpdateRes r)
   | Raise e => Raise e
   end,
   {| queries := queries (world_of q);
      writers := writers (world_of q);
      calls := calls (world_of q) ++ [update_call q doc] |}).
Proof.
  intros q doc.
  apply (run_plain_update (matching 0) (world_of q) 1%positive q doc);
    reflexivity.
Defined.

(** X10: when the driver fails the update, [run] raises that error, also
    for a query in upsert mode: the fallback insert is not tried and the
    one update call is all that reached the driver. *)
Theorem run_update_error_propagates drv w self q doc e :
  queries w !! self = Some q ->
  bulk_writer q = None ->
  update_query q = Ok doc ->
  reply_update drv (calls w) (update_call q doc) = Raise e ->
  run drv self w =
  (Raise e,
   {| queries := queries w;
      writers := writers w;
      calls := calls w ++ [update_call q doc] |}).
Proof.
  intros H Hbw Hq Hr. by rewrite (run_immediate_spec _ _ _ _ _ H Hbw Hq), Hr.
Qed.

Lemma run_update_error_propagates_witness :
  let q := set_upsert_insert_doc (Some sample_doc)
             (with_expressions [set_field "x" 1]) in
  let doc := VDict {[ "$set" := VDict {[ "x" := VInt 1 ]} ]} in
  run unreachable 1 (world_of q) =
  (Raise (PyMongoError "ServerSelectionTimeoutError"),
   {| queries := queries (world_of q);
      writers := writers (world_of q);
      calls := calls (world_of q) ++ [update_call q doc] |}).
Proof.
  intros q doc.
  apply (run_update_error_propagates unreachable (world_of q) 1%positive q
           doc); reflexivity.
Defined.

(** X12: what one [run] sends to the driver: nothing at all, or one update
    call, or one update call followed by one insert; an insert is never
    handed to a bulk writer, and a [run] that called the driver added
    nothing to any bulk writer. *)
Theorem run_driver_calls drv self w :
  exists new,
    calls (snd (run drv self w)) = calls w ++ new /\
    (new = [] \/
     exists u rest,
       new = u :: rest /\
       is_update_call u = true /\
       length rest <= 1 /\
       Forall (fun c => is_update_call c = false /\ insert_is_direct c = true)
         rest /\
       writers (snd (run drv self w)) = writers w).
Proof.
  destruct (run_cases drv self w)
    as [[e ->]|[(q & doc & H & Hbw & Hq)|(q & bw & ops & doc & H & Hbw & Hops & Hq)]].
  - exists []. split; [by rewrite app_nil_r|by left].
  - rewrite (run_immediate_spec _ _ _ _ _ H Hbw Hq).
    assert (Hu : is_update_call (update_call q doc) = true)
      by (unfold update_call; by destruct (cls q)).
    assert (Hone : exists new,
               calls (record_call (update_call q doc) w) = calls w ++ new /\
               (new = [] \/
                exists u rest,
                  new = u :: rest /\ is_update_call u = true /\
                  length rest <= 1 /\
                  Forall (fun c => is_update_call c = false /\
                                   insert_is_direct c = true) rest /\
                  writers (record_call (update_call q doc) w) = writers w)).
    { exists [update_call q doc]. split; [done|]. right.
      exists (update_call q doc), []. repeat split; auto. }
    destruct (reply_update drv _ _) as [r|e]; [|exact Hone].
    destruct (upsert_insert_doc q) as [d|]; [|exact Hone].
    destruct (matched_count r =? 0)%Z; [|exact Hone].
    exists [update_call q doc; insert_call q d]. split.
    + simpl. by rewrite <- app_assoc.
    + right. exists (update_call q doc), [insert_call q d].
      repeat split; auto.
      constructor; [|constructor].
      unfold insert_call. rewrite Hbw. by split.
  - rewrite (run_enqueue_spec _ _ _ _ _ _ _ H Hbw Hops Hq).
    exists []. split; [by rewrite app_nil_r|by left].
Qed.

(** ** Building, then running *)

Lemma update_state_session_given args s bw kwargs q :
  session (update_state args (Some s) bw kwargs q) = Some s.
Proof.
  unfold update_state, bind_bulk_writer, bind_session.
  by destruct (truthy bw).
Qed.

Lemma update_state_no_writer args s kwargs q :
  bulk_writer (update_state args s None kwargs q) = bulk_writer q.
Proof. by rewrite update_state_bulk_writer. Qed.

(** X15: [upsert] with a session and no bulk writer, followed by [run],
    on a database where the update matches nothing: the update call and
    the insert of the [on_insert] document both carry that session, the
    insert goes to the model of the query without a bulk writer, and [run]
    returns the outcome of the insert. *)
Theorem upsert_then_run_inserts drv w self q args d s kwargs doc r :
  queries w !! self = Some q ->
  bulk_writer q = None ->
  update_query (upsert_state args d (Some s) None kwargs q) = Ok doc ->
  reply_update drv (calls w)
    (update_call (upsert_state args d (Some s) None kwargs q) doc) = Ok r ->
  (matched_count r = 0)%Z ->
  let q' := upsert_state args d (Some s) None kwargs q in
  session q' = Some s /\
  (upsert self args d (Some s) None kwargs ;; run drv self) w =
  (insert_outcome
     (reply_insert drv (calls w ++ [update_call q' doc])
        (DocumentInsertOne (document_model q) d (Some s) None)),
   {| queries := <[self := q']> (queries w);
      writers := writers w;
      calls := calls w ++
               [update_call q' doc;
                DocumentInsertOne (document_model q) d (Some s) None] |}).
Proof.
  intros H Hbw Hq Hr Hzero q'. subst q'.
  set (q' := upsert_state args d (Some s) None kwargs q) in *.
  assert (Hs : session q' = Some s) by apply update_state_session_given.
  assert (Hbw' : bulk_writer q' = None).
  { unfold q', upsert_state. by rewrite update_state_no_writer. }
  assert (Hd : upsert_insert_doc q' = Some d).
  { unfold q', upsert_state. by rewrite update_state_upsert_insert_doc. }
  assert (Hm : document_model q' = document_model q).
  { unfold q', upsert_state.
    by destruct (update_state_frame args (Some s) None kwargs
                   (set_upsert_insert_doc (Some d) q)) as (_ & -> & _). }
  split; [exact Hs|].
  unfold py_bind at 1. rewrite (upsert_spec _ _ _ _ _ _ _ _ H).
  fold q'.
  rewrite (run_immediate_spec drv self q' doc (store_query self q' w)
             (store_query_lookup _ _ _) Hbw' Hq).
  change (calls (store_query self q' w)) with (calls w).
  rewrite Hr, Hd, Hzero.
  change (0 =? 0)%Z with true. cbv iota.
  unfold insert_call, record_call, store_query. rewrite Hs, Hbw', Hm.
  cbn [calls queries writers].
  by rewrite <- app_assoc.
Qed.

Lemma upsert_then_run_inserts_witness :
  let q := init UpdateOneCls Sample sample_filter in
  let q' := upsert_state [set_field "x" 1] sample_doc (Some (Session 3)) None
              ∅ q in
  let doc := VDict {[ "$set" := VDict {[ "x" := VInt 1 ]} ]} in
  session q' = Some (Session 3) /\
  (upsert 1 [set_field "x" 1] sample_doc (Some (Session 3)) None ∅ ;;
   run (matching 0) 1) (world_of q) =
  (insert_outcome
     (reply_insert (matching 0) (calls (world_of q) ++ [update_call q' doc])
        (DocumentInsertOne (document_model q) sample_doc (Some (Session 3))
           None)),
   {| queries := <[1%positive := q']> (queries (world_of q));
      writers := writers (world_of q);
      calls := calls (world_of q) ++
               [update_call q' doc;
                DocumentInsertOne (document_model q) sample_doc
                  (Some (Session 3)) None] |}).
Proof.
  intros q q' doc.
  apply (upsert_then_run_inserts (matching 0) (world_of q) 1%positive q
           [set_field "x" 1] sample_doc (Session 3) ∅ doc
           {| matched_count := 0; modified_count := 0; upserted_id := None |});
    reflexivity.
Defined.

(** X16: a query run as the constructor left it, with no modification
    given, still goes to the driver: [run] makes the update call of its
    class with the filter of the constructor, the empty update document,
    no session and no options. *)
Theorem run_fresh_query_sends_empty_update drv w self k dm fq :
  queries w !! self = Some (init k dm fq) ->
  update_query (init k dm fq) = Ok (VDict ∅) /\
  calls (snd (run drv self w)) =
  calls w ++
  [match k with
   | UpdateManyCls =>
       CollectionUpdateMany (get_motor_collection dm) fq (VDict ∅) None ∅
   | UpdateOneCls =>
       CollectionUpdateOne (get_motor_collection dm) fq (VDict ∅) None ∅
   end].
Proof.
  intros H.
  assert (Hq : update_query (init k dm fq) = Ok (VDict ∅)).
  { unfold update_query. simpl. by rewrite fmap_empty. }
  split; [exact Hq|].
  rewrite (run_immediate_spec drv self _ _ w H eq_refl Hq).
  unfold update_call. simpl.
  destruct (reply_update drv _ _); by destruct k.
Qed.

Lemma run_fresh_query_sends_empty_update_witness :
  update_query (init UpdateManyCls Sample sample_filter) = Ok (VDict ∅) /\
  calls
    (snd (run (matching 1) 1
            (world_of (init UpdateManyCls Sample sample_filter)))) =
  calls (world_of (init UpdateManyCls Sample sample_filter)) ++
  [CollectionUpdateMany (get_motor_collection Sample) sample_filter
     (VDict ∅) None ∅].
Proof.
  apply (run_fresh_query_sends_empty_update (matching 1)
           (world_of (init UpdateManyCls Sample sample_filter)) 1%positive
           UpdateManyCls Sample sample_filter).
  reflexivity.
Defined.

(** ** Settings of union documents and views *)

(** X17: [UnionDocSettings.init] succeeds exactly when the class has an
    inner [Settings] class that passes validation and the database
    accepts the name (the one given in [Settings], else the name of the
    class); the settings it returns then have that name, the database
    handed in, and the collection the database answered for that very
    name; all other fields are as validated. *)
Theorem union_doc_settings_init_binds_collection
    (parse_obj : gmap string value -> Settings.outcome Settings.UnionDocSettings)
    (getitem : Settings.Database -> string ->
               Settings.outcome Settings.Collection)
    (doc_class : Settings.PyClass) (database : Settings.Database)
    (s : Settings.UnionDocSettings) :
  Settings.UnionDocSettings_init parse_obj getitem doc_class database =
    Settings.Done s <->
  exists attrs p c,
    Settings.inner_settings doc_class = Some attrs /\
    parse_obj attrs = Settings.Done p /\
    let n := default (Settings.__name__ doc_class) (Settings.name p) in
    getitem database n = Settings.Done c /\
    s = {| Settings.name := Some n;
           Settings.motor_db := Some database;
           Settings.motor_collection := Some c;
           Settings.other_fields := Settings.other_fields p |}.
Proof.
  unfold Settings.UnionDocSettings_init, Settings.vars.
  split.
  - destruct (Settings.inner_settings doc_class) as [attrs|]; [|discriminate].
    destruct (parse_obj attrs) as [p|e] eqn:Hp; [|discriminate].
    destruct (Settings.name p) as [n|] eqn:Hn; simpl.
    + destruct (getitem database n) as [c|e] eqn:Hc; [|discriminate].
      intros H. exists attrs, p, c. rewrite Hn. simpl.
      repeat split; try done. by inversion H.
    + destruct (getitem database (Settings.__name__ doc_class)) as [c|e] eqn:Hc;
        [|discriminate].
      intros H. exists attrs, p, c. rewrite Hn. simpl.
      repeat split; try done. by inversion H.
  - intros (attrs & p & c & -> & Hp & Hc & ->). rewrite Hp.
    destruct (Settings.name p); simpl in *; by rewrite Hc.
Qed.

(** X18: [ViewSettings.init] succeeds exactly when the view class has an
    inner [Settings] class that passes validation, its source is a
    collection name or a class that answers its collection name, and the
    database accepts the name of the view (the one given, else the name
    of the class); the settings it returns then have that name, the
    collection the database answered for it, and a source that is a
    collection name, never a class. *)
Theorem view_settings_init_binds_collection
    (parse_obj : gmap string value -> Settings.outcome Settings.ViewSettings)
    (getitem : Settings.Database -> string ->
               Settings.outcome Settings.Collection)
    (view_class : Settings.PyClass) (database : Settings.Database)
    (s : Settings.ViewSettings) :
  Settings.ViewSettings_init parse_obj getitem view_class database =
    Settings.Done s <->
  exists attrs p src c,
    Settings.inner_settings view_class = Some attrs /\
    parse_obj attrs = Settings.Done p /\
    (Settings.source p = Settings.SourceName src \/
     Settings.source p = Settings.SourceClass (Settings.Done src)) /\
    let n := default (Settings.__name__ view_class) (Settings.view_name p) in
    getitem database n = Settings.Done c /\
    s = {| Settings.view_name := Some n;
           Settings.view_motor_db := Some database;
           Settings.view_motor_collection := Some c;
           Settings.source := Settings.SourceName src;
           Settings.pipeline := Settings.pipeline p;
           Settings.view_other_fields := Settings.view_other_fields p |}.
Proof.
  unfold Settings.ViewSettings_init.
  split.
  - destruct (Settings.inner_settings view_class) as [attrs|]; [|discriminate].
    destruct (parse_obj attrs) as [p|e] eqn:Hp; [|discriminate].
    destruct (Settings.source p) as [src|[src|e]] eqn:Hsrc; try discriminate;
      destruct (Settings.view_name p) as [n|] eqn:Hn; simpl;
      match goal with
      | |- context [getitem database ?x] =>
          destruct (getitem database x) as [c|e] eqn:Hc; [|discriminate]
      end;
      intros H; exists attrs, p, src, c; rewrite Hn; simpl;
      repeat split; auto; by inversion H.
  - intros (attrs & p & src & c & -> & Hp & Hsrc & Hc & ->). rewrite Hp.
    destruct Hsrc as [-> | ->];
      destruct (Settings.view_name p); simpl in *; by rewrite Hc.
Qed.

(** X19: a class without inner [Settings] class: [ViewSettings.init]
    raises [ViewHasNoSettings] and [UnionDocSettings.init], which has no
    such check, raises the [TypeError] of [vars(None)]; in both the
    validation is not reached. *)
Theorem settings_init_without_settings_class
    (parse_union : gmap string value -> Settings.outcome Settings.UnionDocSettings)
    (parse_view : gmap string value -> Settings.outcome Settings.ViewSettings)
    (getitem : Settings.Database -> string ->
               Settings.outcome Settings.Collection)
    (c : Settings.PyClass) (database : Settings.Database) :
  Settings.inner_settings c = None ->
  Settings.ViewSettings_init parse_view getitem c database =
    Settings.Failed
      (Settings.ViewHasNoSettings "View must have Settings inner class") /\
  Settings.UnionDocSettings_init parse_union getitem c database =
    Settings.Failed
      (Settings.PyTypeError "vars() argument must have __dict__ attribute").
Proof.
  intros H.
  unfold Settings.ViewSettings_init, Settings.UnionDocSettings_init.
  by rewrite H.
Qed.

Lemma settings_init_without_settings_class_witness :
  let c := {| Settings.__name__ := "Orders";
              Settings.inner_settings := None |} in
  Settings.ViewSettings_init Settings.parse_view Settings.sample_getitem c
    Settings.test_db =
    Settings.Failed
      (Settings.ViewHasNoSettings "View must have Settings inner class") /\
  Settings.UnionDocSettings_init Settings.parse_union Settings.sample_getitem
    c Settings.test_db =
    Settings.Failed
      (Settings.PyTypeError "vars() argument must have __dict__ attribute").
Proof.
  intros c.
  apply (settings_init_without_settings_class Settings.parse_union
           Settings.parse_view Settings.sample_getitem c Settings.test_db).
  reflexivity.
Defined.

(** X20: a view whose source is a class that fails to answer its
    collection name is not initialised: [ViewSettings.init] raises the
    error of the source class, although the settings of the view itself
    passed validation. *)
Theorem view_settings_init_source_failure
    (parse_obj : gmap string value -> Settings.outcome Settings.ViewSettings)
    (getitem : Settings.Database -> string ->
               Settings.outcome Settings.Collection)
    (view_class : Settings.PyClass) (database : Settings.Database)
    attrs p e :
  Settings.inner_settings view_class = Some attrs ->
  parse_obj attrs = Settings.Done p ->
  Settings.source p = Settings.SourceClass (Settings.Failed e) ->
  Settings.ViewSettings_init parse_obj getitem view_class database =
    Settings.Failed e.
Proof.
  intros H Hp Hsrc. unfold Settings.ViewSettings_init.
  by rewrite H, Hp, Hsrc.
Qed.

Lemma view_settings_init_source_failure_witness :
  Settings.ViewSettings_init Settings.parse_view Settings.sample_getitem
    {| Settings.__name__ := "OrdersView";
       Settings.inner_settings :=
         Some {[ "source" := VObject "type" VNone ]} |}
    Settings.test_db =
  Settings.Failed Settings.CollectionWasNotInitialized.
Proof.
  apply (view_settings_init_source_failure Settings.parse_view
           Settings.sample_getitem _ _
           {[ "source" := VObject "type" VNone ]}
           (Settings.parsed_view {[ "source" := VObject "type" VNone ]}
              (Settings.SourceClass
                 (Settings.Failed Settings.CollectionWasNotInitialized))));
    reflexivity.
Defined.
